(** * Submission relay: contact form, newsletter subscribe and unsubscribe

    A shallow embedding of [src/server.ts]: the Zod schema of the contact
    form, the three request handlers and the calls they make to the mail
    transport and to the audience service, followed by the properties that
    the specification states about them.

    Conventions.
    - A JavaScript string is a sequence of UTF-16 code units.  The
      development works with the code units below 256 (Basic Latin and
      Latin-1), represented by [ascii]; [String.length] is then the
      [length] property of the JavaScript string.
    - A thrown exception is a value of [Exn]; an [async] handler either
      sends a response or ends with a rejected promise.
    - Every call that leaves the handler (mail transport, audience service,
      digest, console) is recorded in a trace of [Event]s.
    - A number of a payload is an integer.
    - The length checks of the schema also run on a value that is not a
      string but has a [length], and convert that [length] to a number.
      The conversion is modelled where it completes: an object with a
      [toString] key of its own, on which it throws a TypeError inside
      [parse], is read like any other object, as not a number (see
      [converts]). *)

From Stdlib Require Import ZArith List Bool Ascii String Lia ZifyBool.
Import ListNotations.

Local Open Scope string_scope.
Local Open Scope list_scope.

(** ** JavaScript strings *)

Module JsString.

Definition code (c : ascii) : Z := Z.of_N (N_of_ascii c).

Definition of_code (z : Z) : ascii := ascii_of_N (Z.to_N z).

(** Code units that [String.prototype.toLowerCase] changes, in the range
    below 256: A-Z, and U+00C0-U+00DE without the multiplication sign. *)
Definition is_upper (c : ascii) : bool :=
  let n := code c in
  ((65 <=? n) && (n <=? 90))%Z
  || ((192 <=? n) && (n <=? 222) && negb (n =? 215))%Z.

Definition lower_char (c : ascii) : ascii :=
  if is_upper c then of_code (code c + 32) else c.

(** [s.toLowerCase()] *)
Fixpoint toLowerCase (s : string) : string :=
  match s with
  | EmptyString => EmptyString
  | String c r => String (lower_char c) (toLowerCase r)
  end.

(** [s.split(" ")]: the pieces between the occurrences of the separator;
    never an empty array, consecutive separators give empty pieces. *)
Fixpoint split_on (sep : ascii -> bool) (s : string) : list string :=
  match s with
  | EmptyString => [EmptyString]
  | String c r =>
      if sep c then EmptyString :: split_on sep r
      else match split_on sep r with
           | p :: ps => String c p :: ps
           | [] => [String c EmptyString]
           end
  end.

Definition is_space (c : ascii) : bool := Ascii.eqb c " ".

Definition split_space (s : string) : list string := split_on is_space s.

(** [parts.join(sep)] *)
Fixpoint join (sep : string) (parts : list string) : string :=
  match parts with
  | [] => EmptyString
  | [p] => p
  | p :: ps => p ++ sep ++ join sep ps
  end.

(** [parts.join(".")] is used on issue paths. *)
Definition join_dot (parts : list string) : string := join "." parts.

(** Truthiness of a string: every string but the empty one. *)
Definition truthy (s : string) : bool :=
  match s with EmptyString => false | _ => true end.

(** [a || b] on strings that may be [undefined]. *)
Definition or_else (a : option string) (b : string) : string :=
  match a with
  | Some s => if truthy s then s else b
  | None => b
  end.

Definition nl : string := String (ascii_of_nat 10) EmptyString.

(** [n] copies of a code unit. *)
Fixpoint replicate (n : nat) (c : ascii) : string :=
  match n with
  | O => EmptyString
  | S k => String c (replicate k c)
  end.

End JsString.

(** ** The md5 digest of [crypto.createHash("md5")] (RFC 1321) *)

Module Md5.

Local Open Scope Z_scope.

Definition w32 (x : Z) : Z := x mod 4294967296.

Definition rotl (x c : Z) : Z :=
  w32 (Z.lor (Z.shiftl x c) (Z.shiftr x (32 - c))).

Definition sines : list Z :=
  [ 0xd76aa478; 0xe8c7b756; 0x242070db; 0xc1bdceee;
    0xf57c0faf; 0x4787c62a; 0xa8304613; 0xfd469501;
    0x698098d8; 0x8b44f7af; 0xffff5bb1; 0x895cd7be;
    0x6b901122; 0xfd987193; 0xa679438e; 0x49b40821;
    0xf61e2562; 0xc040b340; 0x265e5a51; 0xe9b6c7aa;
    0xd62f105d; 0x02441453; 0xd8a1e681; 0xe7d3fbc8;
    0x21e1cde6; 0xc33707d6; 0xf4d50d87; 0x455a14ed;
    0xa9e3e905; 0xfcefa3f8; 0x676f02d9; 0x8d2a4c8a;
    0xfffa3942; 0x8771f681; 0x6d9d6122; 0xfde5380c;
    0xa4beea44; 0x4bdecfa9; 0xf6bb4b60; 0xbebfbc70;
    0x289b7ec6; 0xeaa127fa; 0xd4ef3085; 0x04881d05;
    0xd9d4d039; 0xe6db99e5; 0x1fa27cf8; 0xc4ac5665;
    0xf4292244; 0x432aff97; 0xab9423a7; 0xfc93a039;
    0x655b59c3; 0x8f0ccc92; 0xffeff47d; 0x85845dd1;
    0x6fa87e4f; 0xfe2ce6e0; 0xa3014314; 0x4e0811a1;
    0xf7537e82; 0xbd3af235; 0x2ad7d2bb; 0xeb86d391 ].

Definition shifts : list Z :=
  [ 7; 12; 17; 22; 7; 12; 17; 22; 7; 12; 17; 22; 7; 12; 17; 22;
    5; 9; 14; 20; 5; 9; 14; 20; 5; 9; 14; 20; 5; 9; 14; 20;
    4; 11; 16; 23; 4; 11; 16; 23; 4; 11; 16; 23; 4; 11; 16; 23;
    6; 10; 15; 21; 6; 10; 15; 21; 6; 10; 15; 21; 6; 10; 15; 21 ].

Record regs := Regs { rA : Z; rB : Z; rC : Z; rD : Z }.

Definition init : regs :=
  Regs 0x67452301 0xefcdab89 0x98badcfe 0x10325476.

Definition lnot32 (x : Z) : Z := Z.lxor x 0xffffffff.

(** One of the 64 operations on the block [m] of sixteen words. *)
Definition step (m : list Z) (r : regs) (i : nat) : regs :=
  let zi := Z.of_nat i in
  let '(Regs a b c d) := r in
  let '(f, g) :=
    if zi <? 16 then (Z.lor (Z.land b c) (Z.land (lnot32 b) d), zi)
    else if zi <? 32 then
      (Z.lor (Z.land d b) (Z.land (lnot32 d) c), (5 * zi + 1) mod 16)
    else if zi <? 48 then (Z.lxor b (Z.lxor c d), (3 * zi + 5) mod 16)
    else (Z.lxor c (Z.lor b (lnot32 d)), (7 * zi) mod 16) in
  let f' := w32 (f + a + nth i sines 0 + nth (Z.to_nat g) m 0) in
  Regs d (w32 (b + rotl f' (nth i shifts 0))) b c.

Definition block (r : regs) (m : list Z) : regs :=
  let r' := fold_left (step m) (seq 0 64) r in
  Regs (w32 (rA r + rA r')) (w32 (rB r + rB r'))
       (w32 (rC r + rC r')) (w32 (rD r + rD r')).

(** Little-endian bytes of a word and back. *)
Fixpoint le_bytes (n : nat) (x : Z) : list Z :=
  match n with
  | O => []
  | S k => (x mod 256) :: le_bytes k (x / 256)
  end.

Fixpoint le_word (bs : list Z) : Z :=
  match bs with
  | [] => 0
  | b :: r => b + 256 * le_word r
  end.

Fixpoint words (n : nat) (bs : list Z) : list Z :=
  match n with
  | O => []
  | S k => le_word (firstn 4 bs) :: words k (skipn 4 bs)
  end.

Definition pad (bs : list Z) : list Z :=
  let len := Z.of_nat (List.length bs) in
  let zeros := Z.to_nat ((55 - len) mod 64) in
  bs ++ [128] ++ repeat 0 zeros ++ le_bytes 8 (8 * len).

Fixpoint blocks (fuel : nat) (r : regs) (bs : list Z) : regs :=
  match fuel, bs with
  | S k, _ :: _ => blocks k (block r (words 16 (firstn 64 bs))) (skipn 64 bs)
  | _, _ => r
  end.

Definition digest (bs : list Z) : list Z :=
  let p := pad bs in
  let '(Regs a b c d) := blocks (List.length p) init p in
  le_bytes 4 a ++ le_bytes 4 b ++ le_bytes 4 c ++ le_bytes 4 d.

Definition hex_digit (n : Z) : ascii :=
  nth (Z.to_nat n)
      (list_ascii_of_string "0123456789abcdef") "0"%char.

(** [digest("hex")]: two lowercase hexadecimal digits per byte. *)
Fixpoint hex (bs : list Z) : string :=
  match bs with
  | [] => EmptyString
  | b :: r => String (hex_digit (b / 16)) (String (hex_digit (b mod 16)) (hex r))
  end.

(** [update(s)] hashes the UTF-8 encoding of the string. *)
Fixpoint utf8 (s : string) : list Z :=
  match s with
  | EmptyString => []
  | String c r =>
      let n := JsString.code c in
      if n <? 128 then n :: utf8 r
      else (192 + n / 64) :: (128 + n mod 64) :: utf8 r
  end.

Definition md5_hex (s : string) : string := hex (digest (utf8 s)).

End Md5.

(** ** Request payloads and the Zod schema *)

#[local] Set Warnings "-register-all".

(** A parsed JSON request body.  Numbers matter through their type and,
    as the [length] of an object, through their order with the bounds of
    the schema; they are kept as integers. *)
Inductive JSON : Type :=
| JNull
| JBool (b : bool)
| JNumber (n : Z)
| JString (s : string)
| JArray (items : list JSON)
| JObject (props : list (string * JSON)).

(** [o[key]]: the property, or [None] for [undefined].  The keys of a
    parsed object are distinct. *)
Fixpoint lookup (props : list (string * JSON)) (key : string) : option JSON :=
  match props with
  | [] => None
  | (k, v) :: rest => if String.eqb k key then Some v else lookup rest key
  end.

(** ** The comparison of a length with a bound

    The length checks of the schema read the [length] of the value and
    compare it with their bound by [>=] and [<=].  When the [length] is
    not a number, JavaScript first converts it to one (ToPrimitive, then
    ToNumber) and rounds the result to the nearest double. *)

Module Js.

Local Open Scope Z_scope.

(** The outcome of the conversion: not a number, an infinity, or
    [mantissa] times ten to the power [exponent], not yet rounded. *)
Inductive Number : Type :=
| NaN
| Infinite (negative : bool)
| Finite (mantissa exponent : Z).

(** The code units below 256 that may surround a numeric string. *)
Definition is_whitespace (c : ascii) : bool :=
  let n := JsString.code c in
  ((9 <=? n) && (n <=? 13)) || (n =? 32) || (n =? 160).

Fixpoint trim_left (l : list ascii) : list ascii :=
  match l with
  | c :: r => if is_whitespace c then trim_left r else l
  | [] => []
  end.

Definition trim (l : list ascii) : list ascii :=
  rev (trim_left (rev (trim_left l))).

(** The value of a digit in a base, if it is one. *)
Definition digit (base : Z) (c : ascii) : option Z :=
  let n := JsString.code c in
  let d := if (48 <=? n) && (n <=? 57) then n - 48
           else if (97 <=? n) && (n <=? 102) then n - 87
           else if (65 <=? n) && (n <=? 70) then n - 55
           else base in
  if d <? base then Some d else None.

(** The digits at the head of a text, and what follows them. *)
Fixpoint take_digits (base : Z) (l : list ascii) : list Z * list ascii :=
  match l with
  | c :: r =>
      match digit base c with
      | Some d => let '(ds, rest) := take_digits base r in (d :: ds, rest)
      | None => ([], l)
      end
  | [] => ([], [])
  end.

Definition value (base : Z) (ds : list Z) : Z :=
  fold_left (fun acc d => acc * base + d) ds 0.

(** [0x], [0o] and [0b] literals: the base and the digits to read. *)
Definition radix (l : list ascii) : option (Z * list ascii) :=
  match l with
  | "0"%char :: c :: r =>
      if Ascii.eqb c "x" || Ascii.eqb c "X" then Some (16, r)
      else if Ascii.eqb c "o" || Ascii.eqb c "O" then Some (8, r)
      else if Ascii.eqb c "b" || Ascii.eqb c "B" then Some (2, r)
      else None
  | _ => None
  end.

Definition signed (l : list ascii) : bool * list ascii :=
  match l with
  | "+"%char :: r => (false, r)
  | "-"%char :: r => (true, r)
  | _ => (false, l)
  end.

(** The exponent part, which must end the text: [None] when what
    follows the digits is something else. *)
Definition exponent (l : list ascii) : option Z :=
  match l with
  | [] => Some 0
  | c :: r =>
      if Ascii.eqb c "e" || Ascii.eqb c "E" then
        let '(negative, r') := signed r in
        match take_digits 10 r' with
        | (d :: ds, []) =>
            Some (if negative then - value 10 (d :: ds) else value 10 (d :: ds))
        | _ => None
        end
      else None
  end.

(** A decimal literal with its optional sign, or [Infinity]. *)
Definition decimal (l : list ascii) : Number :=
  let '(negative, l1) := signed l in
  if String.eqb (string_of_list_ascii l1) "Infinity" then Infinite negative
  else
    let '(whole, l2) := take_digits 10 l1 in
    let '(fraction, l3) :=
      match l2 with
      | "."%char :: r => take_digits 10 r
      | _ => ([], l2)
      end in
    match whole ++ fraction, exponent l3 with
    | _ :: _, Some e =>
        let m := value 10 (whole ++ fraction) in
        Finite (if negative then - m else m) (e - Z.of_nat (List.length fraction))
    | _, _ => NaN
    end.

(** ToNumber on a string. *)
Definition string_to_number (s : string) : Number :=
  match trim (list_ascii_of_string s) with
  | [] => Finite 0 0
  | l =>
      match radix l with
      | Some (base, r) =>
          match take_digits base r with
          | (d :: ds, []) => Finite (value base (d :: ds)) 0
          | _ => NaN
          end
      | None => decimal l
      end
  end.

(** ToNumber on the text that [Array.prototype.join] makes of an
    element: null gives the empty text, an array the text of its own
    elements, and two elements or more are separated by a comma, which is
    no part of a number; neither is the text of an object. *)
Fixpoint joined_number (v : JSON) : Number :=
  match v with
  | JNull => Finite 0 0
  | JBool _ => NaN
  | JNumber n => Finite n 0
  | JString s => string_to_number s
  | JArray [] => Finite 0 0
  | JArray [x] => joined_number x
  | JArray _ => NaN
  | JObject _ => NaN
  end.

(** ToNumber on a value; an object is not a number. *)
Definition toNumber (v : JSON) : Number :=
  match v with
  | JBool b => Finite (if b then 1 else 0) 0
  | JObject _ => NaN
  | _ => joined_number v
  end.

(** [m * 10^e] compared with [p / 2^k], for [k >= 0] and [p] of a few
    thousand bits at most. *)
Definition compare_scaled (m e p k : Z) : comparison :=
  if m =? 0 then 0 ?= p
  else if 0 <=? e then
    if 400 <? e then (if 0 <? m then Gt else Lt)
    else (m * 10 ^ e * 2 ^ k ?= p)
  else if Z.log2 (Z.abs m) + 3600 <? 3 * - e then 0 ?= p
  else (m * 2 ^ k ?= p * 10 ^ (- e)).

(** The least and the greatest real that round to a double [>= n] and
    [<= n], as [p / 2^k]: half a step below [n] and half a step above, the
    tie going to [n] (for [n] below 2^52). *)
Definition lower_threshold (n : Z) : Z * Z :=
  if n =? 0 then (-1, 1075)
  else
    let k := 54 - Z.log2 n in
    if k <=? 0 then (n, 0)
    else (n * 2 ^ k - (if n =? 2 ^ Z.log2 n then 1 else 2), k).

Definition upper_threshold (n : Z) : Z * Z :=
  if n =? 0 then (1, 1075)
  else
    let k := 54 - Z.log2 n in
    if k <=? 0 then (n, 0) else (n * 2 ^ k + 2, k).

Definition not_below (x : Number) (n : Z) : bool :=
  match x with
  | NaN => false
  | Infinite negative => negb negative
  | Finite m e =>
      let '(p, k) := lower_threshold n in
      match compare_scaled m e p k with Lt => false | _ => true end
  end.

Definition not_above (x : Number) (n : Z) : bool :=
  match x with
  | NaN => false
  | Infinite negative => negative
  | Finite m e =>
      let '(p, k) := upper_threshold n in
      match compare_scaled m e p k with Gt => false | _ => true end
  end.

(** [length >= n] and [length <= n] *)
Definition at_least (length : JSON) (n : nat) : bool :=
  match length with
  | JNumber z => Z.of_nat n <=? z
  | _ => not_below (toNumber length) (Z.of_nat n)
  end.

Definition at_most (length : JSON) (n : nat) : bool :=
  match length with
  | JNumber z => z <=? Z.of_nat n
  | _ => not_above (toNumber length) (Z.of_nat n)
  end.

End Js.

Record ZodIssue := Issue {
  issue_code : string;
  issue_path : list string;
  issue_message : string }.

(** What the schema relies on from the [zod] package and does not spell
    out itself. *)
Record ZodRuntime := {
  (** the format test behind [z.email] *)
  isEmail : string -> bool;
  (** default message of an [invalid_type] issue, from the expected type
      and the input ([None] for [undefined]) *)
  invalidTypeMessage : string -> option JSON -> string;
  (** value of the [errors] property of a [ZodError] carrying the given
      issues; [None] when the property is [undefined] *)
  errorsProperty : list ZodIssue -> option (list ZodIssue) }.

(** The validated record that [contactFormSchema.parse] returns. *)
Record ContactSubmission := {
  name : string;
  email : string;
  phone : string;
  contactAbout : string;
  message : string;
  agreeToPolicy : bool }.

Module Zod.

(** Outcome of parsing one value: the issues, or the value when there are
    none. *)
Definition Parsed (A : Type) : Type := (list ZodIssue + A)%type.

(** A schema parses the input found at a path. *)
Definition Schema (A : Type) : Type := list string -> option JSON -> Parsed A.

Definition pure {A} (a : A) : Parsed A := inr a.

(** Object fields are parsed independently; their issues are concatenated
    in the order of the keys. *)
Definition ap {A B} (f : Parsed (A -> B)) (a : Parsed A) : Parsed B :=
  match f, a with
  | inr g, inr x => inr (g x)
  | inr _, inl ia => inl ia
  | inl i, inr _ => inl i
  | inl i, inl ia => inl (i ++ ia)
  end.

Definition issues {A} (p : Parsed A) : list ZodIssue :=
  match p with inl i => i | inr _ => [] end.

(** A length check, run on the [length] of the value. *)
Definition Check : Type := list string -> JSON -> list ZodIssue.

(** [.min(n, { message })] *)
Definition min (n : nat) (msg : string) : Check :=
  fun path length =>
    if Js.at_least length n then [] else [Issue "too_small" path msg].

(** [.max(n, { message })] *)
Definition max (n : nat) (msg : string) : Check :=
  fun path length =>
    if Js.at_most length n then [] else [Issue "too_big" path msg].

(** The [length] of a value: the number of code units of a string, the
    number of items of an array, the property of that name of an object;
    [None] where it is [undefined] and for the values on which the length
    checks do not run ([undefined] and [null]). *)
Definition length_of (input : option JSON) : option JSON :=
  match input with
  | Some (JString s) => Some (JNumber (Z.of_nat (String.length s)))
  | Some (JArray items) => Some (JNumber (Z.of_nat (List.length items)))
  | Some (JObject props) => lookup props "length"
  | _ => None
  end.

(** The length checks run on every value that has a [length], whether
    or not it passed the type test, and each reports on its own. *)
Definition run_checks (checks : list Check) (path : list string)
    (input : option JSON) : list ZodIssue :=
  match length_of input with
  | Some length => flat_map (fun check => check path length) checks
  | None => []
  end.

Section Schemas.

Variable zod : ZodRuntime.

(** [z.string(params)] followed by its length checks; a value that is
    not a string yields the type issue, followed by the issues of the
    checks that its [length] fails, if it has one. *)
Definition z_string (msg : option string) (checks : list Check) : Schema string :=
  fun path input =>
    match input with
    | Some (JString s) =>
        match run_checks checks path input with
        | [] => inr s
        | found => inl found
        end
    | _ =>
        inl (Issue "invalid_type" path
               (match msg with
                | Some m => m
                | None => invalidTypeMessage zod "string" input
                end)
             :: run_checks checks path input)
    end.

(** [z.email({ message })] *)
Definition z_email (msg : string) : Schema string :=
  fun path input =>
    match input with
    | Some (JString s) =>
        if isEmail zod s then inr s else inl [Issue "invalid_format" path msg]
    | _ => inl [Issue "invalid_type" path msg]
    end.

(** [z.boolean().refine(p, { message })] *)
Definition z_boolean_refine (p : bool -> bool) (msg : string) : Schema bool :=
  fun path input =>
    match input with
    | Some (JBool b) => if p b then inr b else inl [Issue "custom" path msg]
    | _ => inl [Issue "invalid_type" path (invalidTypeMessage zod "boolean" input)]
    end.

(** The schema of one key of [z.object]. *)
Definition field {A} (props : list (string * JSON)) (key : string)
    (schema : Schema A) : Parsed A :=
  schema [key] (lookup props key).

End Schemas.

End Zod.

Notation "f <$> a" := (Zod.ap (Zod.pure f) a) (at level 61, left associativity).
Notation "f <*> a" := (Zod.ap f a) (at level 61, left associativity).

Section ContactFormSchema.

Variable zod : ZodRuntime.

(** The six properties of [contactFormSchema]. *)
Definition name_schema : Zod.Schema string :=
  Zod.z_string zod None [Zod.min 2 "Name must be at least 2 characters."].

Definition email_schema : Zod.Schema string :=
  Zod.z_email zod "Please enter a valid email address.".

Definition phone_schema : Zod.Schema string :=
  Zod.z_string zod None [Zod.min 10 "Please enter a valid phone number."].

Definition contactAbout_schema : Zod.Schema string :=
  Zod.z_string zod (Some "Please select a topic.") [].

Definition message_schema : Zod.Schema string :=
  Zod.z_string zod None
    [Zod.min 20 "Message must be at least 20 characters.";
     Zod.max 1000 "Message must not exceed 1000 characters."].

Definition agreeToPolicy_schema : Zod.Schema bool :=
  Zod.z_boolean_refine zod (fun val => Bool.eqb val true)
    "You must agree to the policies to continue.".

(** [contactFormSchema.parse(req.body)]: [inl] is the thrown [ZodError]. *)
Definition contactFormSchema (body : JSON) : Zod.Parsed ContactSubmission :=
  match body with
  | JObject o =>
      Build_ContactSubmission
        <$> Zod.field o "name" name_schema
        <*> Zod.field o "email" email_schema
        <*> Zod.field o "phone" phone_schema
        <*> Zod.field o "contactAbout" contactAbout_schema
        <*> Zod.field o "message" message_schema
        <*> Zod.field o "agreeToPolicy" agreeToPolicy_schema
  | _ => inl [Issue "invalid_type" [] (invalidTypeMessage zod "object" (Some body))]
  end.

End ContactFormSchema.

(** ** Errors, collaborators and their calls *)

(** The error objects that the collaborators throw (the interface
    [MailchimpError] of the source; a plain [Error] has the message only). *)
Record ErrorBody := { title : option string }.

Record ErrorResponse := { body : option ErrorBody }.

Record JsError := {
  err_status : option Z;
  err_response : option ErrorResponse;
  err_message : string }.

(** [err.response?.body?.title] *)
Definition response_body_title (err : JsError) : option string :=
  match err_response err with
  | None => None
  | Some r => match body r with
              | None => None
              | Some b => title b
              end
  end.

(** What the [try] block of the contact handler can throw: the [ZodError]
    of [parse] or an error of a collaborator. *)
Inductive Exn : Type :=
| ZodError (issues : list ZodIssue)
| Error (err : JsError).

(** The [TypeError] of calling a method on [undefined]. *)
Definition TypeError_undefined (method : string) : Exn :=
  Error {| err_status := None;
           err_response := None;
           err_message :=
             "Cannot read properties of undefined (reading '" ++ method ++ "')" |}.

Record MailOptions := {
  mail_from : option string;
  mail_to : option string;
  subject : string;
  html : string;
  replyTo : string }.

Record MergeFields := {
  FNAME : string;
  LNAME : string;
  PHONE : option string }.

(** The member passed to [addListMember]. *)
Record NewMember := {
  email_address : string;
  status : string;
  merge_fields : MergeFields;
  tags : option (list string) }.

Inductive Event : Type :=
| SendMail (options : MailOptions)
| Digest (algorithm input : string)
| GetListMember (list_id subscriber_hash : string)
| AddListMember (list_id : string) (member : NewMember)
| UpdateListMember (list_id subscriber_hash new_status : string)
| ConsoleError (label : string) (error : Exn).

(** The answers of the mail transport and of the audience service during
    one request: [Some]/[inl] is a thrown error. *)
Record Collaborators := {
  sendMail : MailOptions -> option JsError;
  getListMember : string -> string -> option JsError;
  addListMember : string -> NewMember -> JsError + string;
  updateListMember : string -> string -> string -> option JsError }.

(** [process.env] *)
Record Env := {
  MAILCHIMP_AUDIENCE_ID : option string;
  GMAIL_USER : option string;
  CONTACT_FORM_RECIPIENT : option string }.

(** Truthiness of an environment variable: set and not empty. *)
Definition configured (v : option string) : bool :=
  match v with
  | Some s => JsString.truthy s
  | None => false
  end.

(** [a || b] between two environment variables. *)
Definition env_or (a b : option string) : option string :=
  if configured a then a else b.

(** ** Computations with a trace and exceptions *)

Module Eff.

(** The events so far, then the thrown exception or the value. *)
Definition M (E A : Type) : Type := (list Event * (E + A))%type.

Definition ret {E A} (a : A) : M E A := ([], inr a).

Definition throw {E A} (e : E) : M E A := ([], inl e).

Definition bind {E A B} (m : M E A) (k : A -> M E B) : M E B :=
  match m with
  | (t, inl e) => (t, inl e)
  | (t, inr a) => let (t', r) := k a in (t ++ t', r)
  end.

(** [try { m } catch (e) { h e }] *)
Definition try_catch {E E' A} (m : M E A) (h : E -> M E' A) : M E' A :=
  match m with
  | (t, inl e) => let (t', r) := h e in (t ++ t', r)
  | (t, inr a) => (t, inr a)
  end.

(** The same computation seen with a wider type of exceptions. *)
Definition widen {E E' A} (f : E -> E') (m : M E A) : M E' A :=
  match m with
  | (t, inl e) => (t, inl (f e))
  | (t, inr a) => (t, inr a)
  end.

Definition emit {E} (e : Event) : M E unit := ([e], inr tt).

Definition trace {E A} (m : M E A) : list Event := fst m.

Definition result {E A} (m : M E A) : E + A := snd m.

End Eff.

Notation "x <- m ;; k" := (Eff.bind m (fun x => k))
  (at level 62, m at next level, right associativity).
Notation "m ;; k" := (Eff.bind m (fun _ => k))
  (at level 62, right associativity).

Section Calls.

Variable world : Collaborators.

Definition of_thrown (r : option JsError) : JsError + unit :=
  match r with
  | Some e => inl e
  | None => inr tt
  end.

(** [await transporter.sendMail(mailOptions)] *)
Definition call_sendMail (options : MailOptions) : Eff.M JsError unit :=
  ([SendMail options], of_thrown (sendMail world options)).

(** [await mailchimp.lists.getListMember(listId, hash)] *)
Definition call_getListMember (list_id hash : string) : Eff.M JsError unit :=
  ([GetListMember list_id hash], of_thrown (getListMember world list_id hash)).

(** [await mailchimp.lists.addListMember(listId, member)]: the value is
    the [status] of the answer. *)
Definition call_addListMember (list_id : string) (member : NewMember)
    : Eff.M JsError string :=
  ([AddListMember list_id member], addListMember world list_id member).

(** [await mailchimp.lists.updateListMember(listId, hash, { status })] *)
Definition call_updateListMember (list_id hash new_status : string)
    : Eff.M JsError unit :=
  ([UpdateListMember list_id hash new_status],
   of_thrown (updateListMember world list_id hash new_status)).

End Calls.

(** [crypto.createHash("md5").update(input).digest("hex")] *)
Definition createHash_md5_hex {E} (input : string) : Eff.M E string :=
  ([Digest "md5" input], inr (Md5.md5_hex input)).

(** [console.error(label, error)] *)
Definition console_error {E} (label : string) (error : Exn) : Eff.M E unit :=
  Eff.emit (ConsoleError label error).

(** ** Responses *)

Record FieldError := {
  field : string;
  field_message : string }.

(** The JSON body of a response; absent keys are [None]. *)
Record Body := {
  success : bool;
  body_message : string;
  body_error : option string;
  body_errors : option (list FieldError);
  body_status : option string }.

Record Response := {
  status_code : Z;
  json : Body }.

(** [res.status(code).json({ success, message })] *)
Definition respond (code : Z) (ok : bool) (msg : string) : Response :=
  {| status_code := code;
     json := {| success := ok; body_message := msg; body_error := None;
                body_errors := None; body_status := None |} |}.

(** ... with the key [error] *)
Definition respond_error (code : Z) (msg err : string) : Response :=
  {| status_code := code;
     json := {| success := false; body_message := msg; body_error := Some err;
                body_errors := None; body_status := None |} |}.

(** ... with the key [errors] *)
Definition respond_errors (code : Z) (msg : string) (errs : list FieldError)
    : Response :=
  {| status_code := code;
     json := {| success := false; body_message := msg; body_error := None;
                body_errors := Some errs; body_status := None |} |}.

(** ... with the key [status] *)
Definition respond_status (code : Z) (msg st : string) : Response :=
  {| status_code := code;
     json := {| success := true; body_message := msg; body_error := None;
                body_errors := None; body_status := Some st |} |}.

(** ** The handlers of [server.ts] *)

Record SubscribeRequestBody := {
  sub_email : option string;
  firstName : option string;
  lastName : option string }.

(** The [mailOptions] of the contact handler. *)
Definition mailOptions (env : Env) (data : ContactSubmission) : MailOptions :=
  let nl := JsString.nl in
  {| mail_from := GMAIL_USER env;
     mail_to := env_or (CONTACT_FORM_RECIPIENT env) (GMAIL_USER env);
     subject := "New Contact Form Submission: " ++ name data ++ " " ++ email data;
     html :=
       nl ++ "        <h2>New Contact Form Submission</h2>" ++
       nl ++ "        <p><strong>Name:</strong> " ++ name data ++ "</p>" ++
       nl ++ "        <p><strong>Email:</strong> " ++ email data ++ "</p>" ++
       nl ++ "        <p><strong>Phone:</strong> " ++ phone data ++ "</p>" ++
       nl ++ "        <p><strong>Topic:</strong> " ++ contactAbout data ++ "</p>" ++
       nl ++ "        <p><strong>Message:</strong></p>" ++
       nl ++ "        <p>" ++ message data ++ "</p>" ++
       nl ++ "        <hr>" ++
       nl ++ "        <p><em>Agreed to policies: " ++
               (if agreeToPolicy data then "Yes" else "No") ++ "</em></p>" ++
       nl ++ "      ";
     replyTo := email data |}.

(** The digest that names a member of the audience list. *)
Definition subscriberHash (email : string) : string :=
  Md5.md5_hex (JsString.toLowerCase email).

(** [nameParts[0] || ""] and [nameParts.slice(1).join(" ") || ""] *)
Definition firstName_of (name : string) : string :=
  let nameParts := JsString.split_space name in
  JsString.or_else (nth_error nameParts 0) "".

Definition lastName_of (name : string) : string :=
  let nameParts := JsString.split_space name in
  JsString.or_else (Some (JsString.join " " (tl nameParts))) "".

(** The member that the contact handler adds. *)
Definition contact_member (data : ContactSubmission) : NewMember :=
  {| email_address := email data;
     status := "subscribed";
     merge_fields := {| FNAME := firstName_of (name data);
                        LNAME := lastName_of (name data);
                        PHONE := Some (phone data) |};
     tags := Some ["contact-form"] |}.

(** The member that the subscribe handler adds. *)
Definition subscribe_member (req : SubscribeRequestBody) (email : string)
    : NewMember :=
  {| email_address := email;
     status := "subscribed";
     merge_fields := {| FNAME := JsString.or_else (firstName req) "";
                        LNAME := JsString.or_else (lastName req) "";
                        PHONE := None |};
     tags := None |}.

(** [v === n] and [v === s] for a property that may be [undefined]. *)
Definition strict_eq_number (v : option Z) (n : Z) : bool :=
  match v with
  | Some m => Z.eqb m n
  | None => false
  end.

Definition strict_eq_string (v : option string) (s : string) : bool :=
  match v with
  | Some t => String.eqb t s
  | None => false
  end.

Section Handlers.

Variable zod : ZodRuntime.
Variable env : Env.
Variable world : Collaborators.

(** [POST /api/mailchimp/newsletter/subscribe] *)
Definition subscribe (req : SubscribeRequestBody) : Eff.M Exn Response :=
  match sub_email req with
  | None => Eff.ret (respond 400 false "Email is required")
  | Some email =>
      if negb (JsString.truthy email) then
        Eff.ret (respond 400 false "Email is required")
      else
        match MAILCHIMP_AUDIENCE_ID env with
        | None => Eff.ret (respond 500 false "Mailchimp audience ID is not configured")
        | Some list_id =>
            if negb (JsString.truthy list_id) then
              Eff.ret (respond 500 false "Mailchimp audience ID is not configured")
            else
              Eff.try_catch
                (response_status <-
                   call_addListMember world list_id (subscribe_member req email) ;;
                 Eff.ret (respond_status 201
                            "Successfully subscribed to newsletter!" response_status))
                (fun err =>
                   (* Handle duplicate email *)
                   if strict_eq_number (err_status err) 400
                      && strict_eq_string (response_body_title err) "Member Exists"
                   then
                     Eff.ret (respond 400 false
                                "This email is already subscribed to the newsletter")
                   else
                     Eff.ret (respond_error 500
                                "Failed to subscribe to newsletter" (err_message err)))
        end
  end.

(** [DELETE /api/mailchimp/newsletter/unsubscribe/:email] *)
Definition unsubscribe (email : string) : Eff.M Exn Response :=
  if negb (JsString.truthy email) then
    Eff.ret (respond 400 false "Email is required")
  else
    match MAILCHIMP_AUDIENCE_ID env with
    | None => Eff.ret (respond 500 false "Mailchimp audience ID is not configured")
    | Some list_id =>
        if negb (JsString.truthy list_id) then
          Eff.ret (respond 500 false "Mailchimp audience ID is not configured")
        else
          Eff.try_catch
            (subscriberHash <- createHash_md5_hex (JsString.toLowerCase email) ;;
             call_updateListMember world list_id subscriberHash "unsubscribed" ;;
             Eff.ret (respond 200 true "Successfully unsubscribed from newsletter"))
            (fun err =>
               Eff.ret (respond_error 500
                          "Failed to unsubscribe from newsletter" (err_message err)))
    end.

(** The enrollment step of the contact handler: the block guarded by
    [if (process.env.MAILCHIMP_AUDIENCE_ID)]. *)
Definition enroll (data : ContactSubmission) : Eff.M Exn unit :=
  match MAILCHIMP_AUDIENCE_ID env with
  | None => Eff.ret tt
  | Some list_id =>
      if JsString.truthy list_id then
        Eff.try_catch
          (subscriberHash <- createHash_md5_hex (JsString.toLowerCase (email data)) ;;
           (* Check if user already exists *)
           Eff.try_catch
             (call_getListMember world list_id subscriberHash)
             (fun _ =>
                (* User doesn't exist, add them *)
                call_addListMember world list_id (contact_member data) ;;
                Eff.ret tt))
          (fun mailchimpError =>
             (* Log the error but don't fail the request *)
             console_error "Failed to add to newsletter:" (Error mailchimpError))
      else Eff.ret tt
  end.

(** The [catch] block of the contact handler. *)
Definition contact_catch (error : Exn) : Eff.M Exn Response :=
  match error with
  | ZodError issues =>
      match errorsProperty zod issues with
      | Some errors =>
          Eff.ret (respond_errors 400 "Validation error"
                     (map (fun err =>
                             {| field := JsString.join_dot (issue_path err);
                                field_message := issue_message err |})
                          errors))
      | None => Eff.throw (TypeError_undefined "map")
      end
  | Error err =>
      console_error "Contact form error:" (Error err) ;;
      Eff.ret (respond_error 500 "Failed to submit contact form" (err_message err))
  end.

(** [POST /api/contact] *)
Definition contact (body : JSON) : Eff.M Exn Response :=
  Eff.try_catch
    (validatedData <-
       match contactFormSchema zod body with
       | inl issues => Eff.throw (ZodError issues)
       | inr data => Eff.ret data
       end ;;
     (* Send email via Gmail SMTP *)
     Eff.widen Error (call_sendMail world (mailOptions env validatedData)) ;;
     (* Add user to newsletter if not already subscribed *)
     enroll validatedData ;;
     Eff.ret (respond 200 true "Contact form submitted successfully!"))
    contact_catch.

End Handlers.

(** ** The [zod] package, major version 4

    [z.email] as a function of [z] exists from this version on.  Its
    [ZodError] carries [issues]; it defines no property [errors]. *)

Module Zod4.

Definition between (lo hi : Z) (c : ascii) : bool :=
  ((lo <=? JsString.code c) && (JsString.code c <=? hi))%Z.

Definition is_alpha (c : ascii) : bool := between 65 90 c || between 97 122 c.

Definition is_alnum (c : ascii) : bool := is_alpha c || between 48 57 c.

Definition one_of (set : string) (c : ascii) : bool :=
  existsb (Ascii.eqb c) (list_ascii_of_string set).

Definition all (p : ascii -> bool) (s : string) : bool :=
  forallb p (list_ascii_of_string s).

Fixpoint has_dot_dot (s : string) : bool :=
  match s with
  | String "." (String "." _) => true
  | String _ r => has_dot_dot r
  | EmptyString => false
  end.

Definition starts_with_dot (s : string) : bool :=
  match s with
  | String "." _ => true
  | _ => false
  end.

Definition last_char (s : string) : option ascii :=
  List.last (map Some (list_ascii_of_string s)) None.

(** The part before the [@]: [[A-Za-z0-9_'+\-\.]*[A-Za-z0-9_+-]] *)
Definition local_part (s : string) : bool :=
  all (fun c => is_alnum c || one_of "_'+-." c) s
  && match last_char s with
     | Some c => is_alnum c || one_of "_+-" c
     | None => false
     end.

(** [[A-Za-z0-9][A-Za-z0-9\-]*] *)
Definition label (s : string) : bool :=
  match s with
  | String c r => is_alnum c && all (fun d => is_alnum d || one_of "-" d) r
  | EmptyString => false
  end.

(** [[A-Za-z]{2,}] *)
Definition top_level (s : string) : bool :=
  Nat.leb 2 (String.length s) && all is_alpha s.

(** The part after the [@]: [([A-Za-z0-9][A-Za-z0-9\-]*\.)+[A-Za-z]{2,}] *)
Definition domain (s : string) : bool :=
  match rev (JsString.split_on (Ascii.eqb ".") s) with
  | tld :: l :: ls => top_level tld && forallb label (l :: ls)
  | _ => false
  end.

(** The default pattern of [z.email]: no leading dot ((?!\.)), no two
    dots in a row ((?!.*\.\.)), then the local part, an [@] and the
    domain, up to the end of the string. *)
Definition email (s : string) : bool :=
  negb (starts_with_dot s) && negb (has_dot_dot s)
  && match JsString.split_on (Ascii.eqb "@") s with
     | [l; d] => local_part l && domain d
     | _ => false
     end.

(** The type name that the default messages print for an input. *)
Definition parsedType (input : option JSON) : string :=
  match input with
  | None => "undefined"
  | Some JNull => "null"
  | Some (JBool _) => "boolean"
  | Some (JNumber _) => "number"
  | Some (JString _) => "string"
  | Some (JArray _) => "array"
  | Some (JObject _) => "object"
  end.

Definition runtime : ZodRuntime :=
  {| isEmail := email;
     invalidTypeMessage := fun expected input =>
       ("Invalid input: expected " ++ expected ++ ", received "
        ++ parsedType input)%string;
     errorsProperty := fun _ => None |}.

End Zod4.

(** ** Notions used by the statements *)

(** Two code units that are the same letter, in either case. *)
Inductive same_letter (c d : ascii) : Prop :=
| same_unit : c = d -> same_letter c d
| upper_lower : JsString.is_upper c = true ->
    JsString.code d = (JsString.code c + 32)%Z -> same_letter c d
| lower_upper : JsString.is_upper d = true ->
    JsString.code c = (JsString.code d + 32)%Z -> same_letter c d.

(** Two strings that are equal up to letter case. *)
Inductive eq_upto_case : string -> string -> Prop :=
| euc_empty : eq_upto_case EmptyString EmptyString
| euc_step c d s t :
    same_letter c d -> eq_upto_case s t ->
    eq_upto_case (String c s) (String d t).

(** The calls to the audience service in a trace. *)
Definition is_audience_call (e : Event) : bool :=
  match e with
  | GetListMember _ _ | AddListMember _ _ | UpdateListMember _ _ _ => true
  | _ => false
  end.

Definition audience_calls (t : list Event) : list Event :=
  filter is_audience_call t.

(** What a call to the audience service names the member by. *)
Definition member_ref (e : Event) : list string :=
  match e with
  | GetListMember _ h => [h]
  | UpdateListMember _ h _ => [h]
  | AddListMember _ m => [email_address m]
  | _ => []
  end.

Definition member_refs (t : list Event) : list string := flat_map member_ref t.

(** The six constraints that the schema enforces, one per key, as tests
    on the property found in the payload. *)
Section Constraints.

Variable zod : ZodRuntime.

Definition is_string_with (p : string -> bool) (v : option JSON) : bool :=
  match v with
  | Some (JString s) => p s
  | _ => false
  end.

Definition constraints : list (string * (option JSON -> bool)) :=
  [ ("name", is_string_with (fun s => Nat.leb 2 (String.length s)));
    ("email", is_string_with (isEmail zod));
    ("phone", is_string_with (fun s => Nat.leb 10 (String.length s)));
    ("contactAbout", is_string_with (fun _ => true));
    ("message", is_string_with (fun s =>
        Nat.leb 20 (String.length s) && Nat.leb (String.length s) 1000));
    ("agreeToPolicy", fun v => match v with Some (JBool true) => true | _ => false end) ].

(** The keys of a payload whose constraint is violated. *)
Definition violated (o : list (string * JSON)) : list string :=
  map fst (filter (fun kc => negb (snd kc (lookup o (fst kc)))) constraints).

End Constraints.








(** The wording of the specification, for comparison with the code. *)
Module SpecWords.

(** Whitespace among the code units below 256. *)
Definition is_whitespace (c : ascii) : bool :=
  let n := JsString.code c in
  ((9 <=? n) && (n <=? 13) || (n =? 32) || (n =? 160))%Z.

(** The tokens of a text split on whitespace. *)
Definition tokens (s : string) : list string :=
  filter JsString.truthy (JsString.split_on is_whitespace s).

(** First token, and the remaining tokens joined by single spaces. *)
Definition first_name (name : string) : string := hd "" (tokens name).

Definition last_name (name : string) : string :=
  JsString.join " " (tl (tokens name)).

(** [contactAbout]: non-empty text. *)
Definition contactAbout_ok (v : option JSON) : bool :=
  is_string_with JsString.truthy v.

(** The six constraints of a ContactSubmission as the data model words
    them; they differ from [constraints] in [contactAbout]. *)
Definition constraints (zod : ZodRuntime) : list (string * (option JSON -> bool)) :=
  map (fun kc => if String.eqb (fst kc) "contactAbout"
                 then (fst kc, contactAbout_ok) else kc)
      (constraints zod).

Definition violated (zod : ZodRuntime) (o : list (string * JSON)) : list string :=
  map fst (filter (fun kc => negb (snd kc (lookup o (fst kc)))) (constraints zod)).

End SpecWords.

(** The digests that the lookups and updates of a trace name a member by. *)
Definition hash_ref (e : Event) : list string :=
  match e with
  | GetListMember _ h => [h]
  | UpdateListMember _ h _ => [h]
  | _ => []
  end.

Definition hash_refs (t : list Event) : list string := flat_map hash_ref t.

(** Every code unit of a string satisfies a property. *)
Definition every (P : ascii -> Prop) (s : string) : Prop :=
  Forall P (list_ascii_of_string s).

(** A name whose only whitespace is single spaces between words. *)
Definition single_spaced (name : string) : Prop :=
  every (fun c => SpecWords.is_whitespace c = JsString.is_space c) name
  /\ Forall (fun piece => JsString.truthy piece = true) (JsString.split_space name).

(** Sample requests, environments and collaborators. *)
Module Sample.

Definition payload (name email phone about message : string) (agree : bool)
    : list (string * JSON) :=
  [ ("name", JString name); ("email", JString email); ("phone", JString phone);
    ("contactAbout", JString about); ("message", JString message);
    ("agreeToPolicy", JBool agree) ].

Definition text (n : nat) : string := JsString.replicate n "m".

Definition jane (email : string) : list (string * JSON) :=
  payload "Jane Q Public" email "0123456789" "sales" (text 20) true.

Definition jane_data (email : string) : ContactSubmission :=
  {| name := "Jane Q Public"; email := email; phone := "0123456789";
     contactAbout := "sales"; message := text 20; agreeToPolicy := true |}.

Definition env_full : Env :=
  {| MAILCHIMP_AUDIENCE_ID := Some "list-1";
     GMAIL_USER := Some "relay@gmail.com";
     CONTACT_FORM_RECIPIENT := Some "owner@example.com" |}.

Definition env_no_audience : Env :=
  {| MAILCHIMP_AUDIENCE_ID := None;
     GMAIL_USER := Some "relay@gmail.com";
     CONTACT_FORM_RECIPIENT := None |}.

Definition plain_error (msg : string) : JsError :=
  {| err_status := None; err_response := None; err_message := msg |}.

Definition member_exists : JsError :=
  {| err_status := Some 400%Z;
     err_response := Some {| body := Some {| title := Some "Member Exists" |} |};
     err_message := "Bad Request" |}.

(** Every call succeeds; the member is found. *)
Definition world_ok : Collaborators :=
  {| sendMail := fun _ => None;
     getListMember := fun _ _ => None;
     addListMember := fun _ _ => inr "subscribed";
     updateListMember := fun _ _ _ => None |}.

(** The mail is sent; every call to the audience service throws. *)
Definition world_audience_down : Collaborators :=
  {| sendMail := fun _ => None;
     getListMember := fun _ _ => Some (plain_error "Resource Not Found");
     addListMember := fun _ _ => inl (plain_error "Service Unavailable");
     updateListMember := fun _ _ _ => Some (plain_error "Service Unavailable") |}.

(** The member is not found and can be added. *)
Definition world_new_member : Collaborators :=
  {| sendMail := fun _ => None;
     getListMember := fun _ _ => Some (plain_error "Resource Not Found");
     addListMember := fun _ _ => inr "subscribed";
     updateListMember := fun _ _ _ => None |}.

(** The mail transport throws. *)
Definition world_mail_down : Collaborators :=
  {| sendMail := fun _ => Some (plain_error "Invalid login");
     getListMember := fun _ _ => None;
     addListMember := fun _ _ => inr "subscribed";
     updateListMember := fun _ _ _ => None |}.

(** The audience service answers that the member exists. *)
Definition world_member_exists : Collaborators :=
  {| sendMail := fun _ => None;
     getListMember := fun _ _ => None;
     addListMember := fun _ _ => inl member_exists;
     updateListMember := fun _ _ _ => None |}.

End Sample.

(** ** Notions for the further properties *)

(** The keys that [contactFormSchema] reads. *)
Definition schema_keys : list string :=
  ["name"; "email"; "phone"; "contactAbout"; "message"; "agreeToPolicy"].

(** The calls to the mail transport in a trace. *)
Definition is_send_mail (e : Event) : bool :=
  match e with
  | SendMail _ => true
  | _ => false
  end.

Definition mails (t : list Event) : list Event := filter is_send_mail t.

(** Whether a string holds a space. *)
Definition has_space (s : string) : bool :=
  existsb JsString.is_space (list_ascii_of_string s).

(** More sample data. *)
Module MoreSamples.

(** Another list, the other settings as in [Sample.env_full]. *)
Definition env_other_list : Env :=
  {| MAILCHIMP_AUDIENCE_ID := Some "list-2";
     GMAIL_USER := Some "relay@gmail.com";
     CONTACT_FORM_RECIPIENT := Some "owner@example.com" |}.

(** The payload of [Sample.jane] with its keys in another order and two
    keys that the schema does not know. *)
Definition jane_shuffled (email : string) : list (string * JSON) :=
  [ ("honeypot", JString "x"); ("agreeToPolicy", JBool true);
    ("message", JString (Sample.text 20)); ("email", JString email);
    ("contactAbout", JString "sales"); ("phone", JString "0123456789");
    ("admin", JBool true); ("name", JString "Jane Q Public") ].


Definition subscribe_request : SubscribeRequestBody :=
  {| sub_email := Some "Jane@Example.com"; firstName := None;
     lastName := Some "Public" |}.

End MoreSamples.

(** * Properties *)

(** ** The validator *)

Section ValidatorFacts.

Variable zod : ZodRuntime.










(** The length of a string is compared as a natural number. *)
Lemma at_least_length len n :
  Js.at_least (JNumber (Z.of_nat len)) n = Nat.leb n len.
Proof.
  unfold Js.at_least. apply Bool.eq_iff_eq_true.
  rewrite Z.leb_le, Nat.leb_le. lia.
Qed.

Lemma at_most_length len n :
  Js.at_most (JNumber (Z.of_nat len)) n = Nat.leb len n.
Proof.
  unfold Js.at_most. apply Bool.eq_iff_eq_true.
  rewrite Z.leb_le, Nat.leb_le. lia.
Qed.


















End ValidatorFacts.

(** ** The handlers, case by case *)

Section HandlerFacts.

Variable zod : ZodRuntime.
Variable env : Env.
Variable world : Collaborators.

(** The enrollment step never throws. *)
Lemma enroll_result data : Eff.result (enroll env world data) = inr tt.
Proof.
  unfold enroll, Eff.result.
  destruct (MAILCHIMP_AUDIENCE_ID env) as [list_id|]; [|reflexivity].
  destruct (JsString.truthy list_id); [|reflexivity].
  cbn.
  destruct (getListMember world list_id _); [|reflexivity].
  cbn. destruct (addListMember world list_id _); reflexivity.
Qed.

(** Its calls when the list is configured. *)
Lemma enroll_trace data list_id :
  MAILCHIMP_AUDIENCE_ID env = Some list_id ->
  JsString.truthy list_id = true ->
  Eff.trace (enroll env world data) =
    Digest "md5" (JsString.toLowerCase (email data))
    :: GetListMember list_id (subscriberHash (email data))
    :: match getListMember world list_id (subscriberHash (email data)) with
       | None => []
       | Some _ =>
           AddListMember list_id (contact_member data)
           :: match addListMember world list_id (contact_member data) with
              | inr _ => []
              | inl err => [ConsoleError "Failed to add to newsletter:" (Error err)]
              end
       end.
Proof.
  intros Hid Hok. unfold enroll, Eff.trace, subscriberHash.
  rewrite Hid, Hok. cbn.
  destruct (getListMember world list_id _); [|reflexivity].
  cbn. destruct (addListMember world list_id _); reflexivity.
Qed.

(** ... and when it is not. *)
Lemma enroll_skipped data :
  configured (MAILCHIMP_AUDIENCE_ID env) = false ->
  enroll env world data = ([], inr tt).
Proof.
  unfold enroll, configured.
  destruct (MAILCHIMP_AUDIENCE_ID env) as [list_id|]; [|reflexivity].
  intros ->. reflexivity.
Qed.

(** The contact handler on a payload that the schema accepts. *)
Lemma contact_accepted body data :
  contactFormSchema zod body = inr data ->
  contact zod env world body =
    match sendMail world (mailOptions env data) with
    | Some err =>
        ([SendMail (mailOptions env data);
          ConsoleError "Contact form error:" (Error err)],
         inr (respond_error 500 "Failed to submit contact form" (err_message err)))
    | None =>
        (SendMail (mailOptions env data) :: Eff.trace (enroll env world data),
         inr (respond 200 true "Contact form submitted successfully!"))
    end.
Proof.
  intros Hparse. unfold contact. rewrite Hparse.
  unfold call_sendMail. cbn.
  destruct (sendMail world (mailOptions env data)); cbn; [reflexivity|].
  pose proof (enroll_result data) as Hres.
  unfold Eff.result, Eff.trace in *.
  destruct (enroll env world data) as [t r]. cbn in *. subst r.
  cbn. rewrite app_nil_r. reflexivity.
Qed.

(** The contact handler on a payload that the schema rejects. *)
Lemma contact_rejected body issues :
  contactFormSchema zod body = inl issues ->
  contact zod env world body =
    ([], match errorsProperty zod issues with
         | Some errors =>
             inr (respond_errors 400 "Validation error"
                    (map (fun err =>
                            {| field := JsString.join_dot (issue_path err);
                               field_message := issue_message err |})
                         errors))
         | None => inl (TypeError_undefined "map")
         end).
Proof.
  intros Hparse. unfold contact. rewrite Hparse. cbn.
  destruct (errorsProperty zod issues); reflexivity.
Qed.

(** The standalone endpoints without a configured list. *)
Lemma subscribe_not_configured req :
  configured (MAILCHIMP_AUDIENCE_ID env) = false ->
  subscribe env world req =
    ([], inr (if configured (sub_email req)
              then respond 500 false "Mailchimp audience ID is not configured"
              else respond 400 false "Email is required")).
Proof.
  unfold subscribe, configured.
  destruct (sub_email req) as [e|]; [|reflexivity].
  destruct (JsString.truthy e); [|reflexivity].
  destruct (MAILCHIMP_AUDIENCE_ID env) as [l|]; [|reflexivity].
  intros ->. reflexivity.
Qed.

Lemma unsubscribe_not_configured email :
  configured (MAILCHIMP_AUDIENCE_ID env) = false ->
  unsubscribe env world email =
    ([], inr (if JsString.truthy email
              then respond 500 false "Mailchimp audience ID is not configured"
              else respond 400 false "Email is required")).
Proof.
  unfold unsubscribe, configured.
  destruct (JsString.truthy email); [|reflexivity].
  destruct (MAILCHIMP_AUDIENCE_ID env) as [l|]; [|reflexivity].
  intros ->. reflexivity.
Qed.

(** The standalone endpoints with a list and an email. *)
Lemma subscribe_configured req email list_id :
  sub_email req = Some email -> JsString.truthy email = true ->
  MAILCHIMP_AUDIENCE_ID env = Some list_id -> JsString.truthy list_id = true ->
  subscribe env world req =
    ([AddListMember list_id (subscribe_member req email)],
     match addListMember world list_id (subscribe_member req email) with
     | inr st => inr (respond_status 201 "Successfully subscribed to newsletter!" st)
     | inl err =>
         inr (if strict_eq_number (err_status err) 400
                 && strict_eq_string (response_body_title err) "Member Exists"
              then respond 400 false
                     "This email is already subscribed to the newsletter"
              else respond_error 500 "Failed to subscribe to newsletter"
                     (err_message err))
     end).
Proof.
  intros He Hne Hl Hnl. unfold subscribe. rewrite He, Hne, Hl, Hnl. cbn.
  destruct (addListMember world list_id _) as [err|st]; cbn; [|reflexivity].
  destruct (strict_eq_number _ _ && strict_eq_string _ _); reflexivity.
Qed.

Lemma unsubscribe_configured email list_id :
  JsString.truthy email = true ->
  MAILCHIMP_AUDIENCE_ID env = Some list_id -> JsString.truthy list_id = true ->
  unsubscribe env world email =
    ([Digest "md5" (JsString.toLowerCase email);
      UpdateListMember list_id (subscriberHash email) "unsubscribed"],
     match updateListMember world list_id (subscriberHash email) "unsubscribed" with
     | None => inr (respond 200 true "Successfully unsubscribed from newsletter")
     | Some err =>
         inr (respond_error 500 "Failed to unsubscribe from newsletter"
                (err_message err))
     end).
Proof.
  intros Hne Hl Hnl. unfold unsubscribe, subscriberHash.
  rewrite Hne, Hl, Hnl. cbn.
  destruct (updateListMember world list_id _ _); reflexivity.
Qed.

End HandlerFacts.

(** ** The contact flow *)

(** C1.  A contact submission that passes validation and whose notification
    is sent gets the success response (200, success: true) whatever the
    audience service does.  If the list is configured and the lookup of
    the member throws, the member is added; if that call throws too, the
    error is logged, and the response is still the success one. *)
Theorem contact_success_whatever_enrollment zod env world body data :
  contactFormSchema zod body = inr data ->
  sendMail world (mailOptions env data) = None ->
  Eff.result (contact zod env world body) =
    inr (respond 200 true "Contact form submitted successfully!")
  /\ (forall list_id err,
        MAILCHIMP_AUDIENCE_ID env = Some list_id ->
        JsString.truthy list_id = true ->
        getListMember world list_id (subscriberHash (email data)) = Some err ->
        In (AddListMember list_id (contact_member data))
           (Eff.trace (contact zod env world body))
        /\ forall err',
             addListMember world list_id (contact_member data) = inl err' ->
             In (ConsoleError "Failed to add to newsletter:" (Error err'))
                (Eff.trace (contact zod env world body))).
Proof.
  intros Hparse Hsent.
  rewrite (contact_accepted zod env world body data Hparse), Hsent.
  split; [reflexivity|].
  intros list_id err Hid Hok Hlookup.
  unfold Eff.trace at 1 3; cbn [fst].
  rewrite (enroll_trace env world data list_id Hid Hok), Hlookup.
  split.
  - simpl. auto 10.
  - intros err' Hadd. rewrite Hadd. simpl. auto 10.
Qed.

Lemma contact_success_whatever_enrollment_witness :
  contactFormSchema Zod4.runtime (JObject (Sample.jane "User@Example.com")) =
    inr (Sample.jane_data "User@Example.com")
  /\ Eff.result (contact Zod4.runtime Sample.env_full Sample.world_audience_down
                   (JObject (Sample.jane "User@Example.com"))) =
       inr (respond 200 true "Contact form submitted successfully!").
Proof.
  split; [vm_compute; reflexivity|].
  refine (proj1 (contact_success_whatever_enrollment Zod4.runtime Sample.env_full
                   Sample.world_audience_down
                   (JObject (Sample.jane "User@Example.com"))
                   (Sample.jane_data "User@Example.com") _ _));
    vm_compute; reflexivity.
Defined.

(** C2.  When the mail transport throws on a validated submission, the
    response is 500 with the generic message and the text of the transport
    error, and the audience service is not called: the only call is the
    one to the transport. *)
Theorem contact_send_failure zod env world body data err :
  contactFormSchema zod body = inr data ->
  sendMail world (mailOptions env data) = Some err ->
  Eff.result (contact zod env world body) =
    inr (respond_error 500 "Failed to submit contact form" (err_message err))
  /\ Eff.trace (contact zod env world body) =
       [SendMail (mailOptions env data);
        ConsoleError "Contact form error:" (Error err)]
  /\ audience_calls (Eff.trace (contact zod env world body)) = [].
Proof.
  intros Hparse Hthrown.
  rewrite (contact_accepted zod env world body data Hparse), Hthrown.
  repeat split.
Qed.

Lemma contact_send_failure_witness :
  sendMail Sample.world_mail_down
    (mailOptions Sample.env_full (Sample.jane_data "jane@example.com")) =
    Some (Sample.plain_error "Invalid login")
  /\ Eff.result (contact Zod4.runtime Sample.env_full Sample.world_mail_down
                   (JObject (Sample.jane "jane@example.com"))) =
       inr (respond_error 500 "Failed to submit contact form" "Invalid login").
Proof.
  split; [reflexivity|].
  apply (contact_send_failure Zod4.runtime Sample.env_full Sample.world_mail_down
           (JObject (Sample.jane "jane@example.com"))
           (Sample.jane_data "jane@example.com")
           (Sample.plain_error "Invalid login"));
    vm_compute; reflexivity.
Defined.

(** C10.  When no audience list is configured, the contact handler skips
    the enrollment step: after the notification it computes no digest and
    makes no lookup and no add, raises no configuration error and answers
    200; the standalone endpoints, given an email, answer 500 with the
    configuration message in the same situation. *)
Theorem contact_without_audience_list zod env world body data :
  configured (MAILCHIMP_AUDIENCE_ID env) = false ->
  contactFormSchema zod body = inr data ->
  sendMail world (mailOptions env data) = None ->
  contact zod env world body =
    ([SendMail (mailOptions env data)],
     inr (respond 200 true "Contact form submitted successfully!"))
  /\ (forall req,
        configured (sub_email req) = true ->
        Eff.result (subscribe env world req) =
          inr (respond 500 false "Mailchimp audience ID is not configured"))
  /\ (forall address,
        JsString.truthy address = true ->
        Eff.result (unsubscribe env world address) =
          inr (respond 500 false "Mailchimp audience ID is not configured")).
Proof.
  intros Hnone Hparse Hsent. repeat split.
  - rewrite (contact_accepted zod env world body data Hparse), Hsent.
    rewrite (enroll_skipped env world data Hnone). reflexivity.
  - intros req Hreq.
    rewrite (subscribe_not_configured env world req Hnone), Hreq. reflexivity.
  - intros address Haddr.
    rewrite (unsubscribe_not_configured env world address Hnone), Haddr.
    reflexivity.
Qed.

Lemma contact_without_audience_list_witness :
  configured (MAILCHIMP_AUDIENCE_ID Sample.env_no_audience) = false
  /\ contact Zod4.runtime Sample.env_no_audience Sample.world_audience_down
       (JObject (Sample.jane "jane@example.com")) =
     ([SendMail (mailOptions Sample.env_no_audience
                   (Sample.jane_data "jane@example.com"))],
      inr (respond 200 true "Contact form submitted successfully!")).
Proof.
  split; [reflexivity|].
  apply (contact_without_audience_list Zod4.runtime Sample.env_no_audience
           Sample.world_audience_down (JObject (Sample.jane "jane@example.com"))
           (Sample.jane_data "jane@example.com"));
    vm_compute; reflexivity.
Defined.

(** ** The standalone endpoints *)

(** C6, as the specification states it, fails on a subscribe request
    without an email: with no list configured the answer is 400, "Email is
    required", not 500. *)
Lemma subscribe_without_email_and_list :
  configured (MAILCHIMP_AUDIENCE_ID Sample.env_no_audience) = false
  /\ (forall given,
        In given [None; Some ""] ->
        exists r,
          Eff.result (subscribe Sample.env_no_audience Sample.world_ok
                        {| sub_email := given; firstName := None; lastName := None |})
            = inr r
          /\ status_code r = 400%Z
          /\ body_message (json r) = "Email is required").
Proof.
  split; [reflexivity|].
  intros given [<-|[<-|[]]]; eexists; repeat split.
Qed.

(** C6, amended.  With no list configured, neither standalone endpoint
    calls the audience service.  A request that carries an email gets 500
    with the configuration message; one that carries none gets 400, since
    the email is checked first. *)
Theorem endpoints_without_audience_list env world :
  configured (MAILCHIMP_AUDIENCE_ID env) = false ->
  (forall req,
     Eff.trace (subscribe env world req) = []
     /\ Eff.result (subscribe env world req) =
          inr (if configured (sub_email req)
               then respond 500 false "Mailchimp audience ID is not configured"
               else respond 400 false "Email is required"))
  /\ (forall address,
        Eff.trace (unsubscribe env world address) = []
        /\ Eff.result (unsubscribe env world address) =
             inr (if JsString.truthy address
                  then respond 500 false "Mailchimp audience ID is not configured"
                  else respond 400 false "Email is required")).
Proof.
  intros Hnone. split.
  - intros req. rewrite (subscribe_not_configured env world req Hnone). auto.
  - intros address.
    rewrite (unsubscribe_not_configured env world address Hnone). auto.
Qed.

Lemma endpoints_without_audience_list_witness :
  configured (MAILCHIMP_AUDIENCE_ID Sample.env_no_audience) = false
  /\ Eff.trace (unsubscribe Sample.env_no_audience Sample.world_ok
                  "jane@example.com") = []
  /\ Eff.result (unsubscribe Sample.env_no_audience Sample.world_ok
                   "jane@example.com") =
       inr (respond 500 false "Mailchimp audience ID is not configured").
Proof.
  split; [reflexivity|].
  apply (endpoints_without_audience_list Sample.env_no_audience Sample.world_ok).
  reflexivity.
Defined.

(** C7.  On the subscribe endpoint, an add-member call that throws an
    error with status 400 and body title "Member Exists" gives the 400
    response with the "already subscribed" message; any other error of the
    call gives the generic 500 response with the text of the error. *)
Theorem subscribe_add_member_failure env world req address list_id err :
  sub_email req = Some address -> JsString.truthy address = true ->
  MAILCHIMP_AUDIENCE_ID env = Some list_id -> JsString.truthy list_id = true ->
  addListMember world list_id (subscribe_member req address) = inl err ->
  (err_status err = Some 400%Z /\ response_body_title err = Some "Member Exists" ->
   Eff.result (subscribe env world req) =
     inr (respond 400 false "This email is already subscribed to the newsletter"))
  /\ (~ (err_status err = Some 400%Z
         /\ response_body_title err = Some "Member Exists") ->
      Eff.result (subscribe env world req) =
        inr (respond_error 500 "Failed to subscribe to newsletter"
               (err_message err))).
Proof.
  intros He Hne Hl Hnl Hadd.
  rewrite (subscribe_configured env world req address list_id He Hne Hl Hnl), Hadd.
  unfold Eff.result; cbn [snd].
  split.
  - intros [-> ->]. reflexivity.
  - intros Hother.
    destruct (strict_eq_number (err_status err) 400
              && strict_eq_string (response_body_title err) "Member Exists")
      eqn:Htest; [|reflexivity].
    exfalso. apply Hother.
    apply andb_true_iff in Htest. destruct Htest as [Hs Ht].
    unfold strict_eq_number, strict_eq_string in *.
    destruct (err_status err) as [n|]; [|discriminate].
    destruct (response_body_title err) as [t|]; [|discriminate].
    apply Z.eqb_eq in Hs. apply String.eqb_eq in Ht. subst. auto.
Qed.

Lemma subscribe_add_member_failure_witness :
  addListMember Sample.world_member_exists "list-1"
    (subscribe_member
       {| sub_email := Some "jane@example.com"; firstName := Some "Jane";
          lastName := None |} "jane@example.com") = inl Sample.member_exists
  /\ Eff.result (subscribe Sample.env_full Sample.world_member_exists
                   {| sub_email := Some "jane@example.com";
                      firstName := Some "Jane"; lastName := None |}) =
       inr (respond 400 false "This email is already subscribed to the newsletter").
Proof.
  split; [reflexivity|].
  apply (subscribe_add_member_failure Sample.env_full Sample.world_member_exists
           {| sub_email := Some "jane@example.com"; firstName := Some "Jane";
              lastName := None |} "jane@example.com" "list-1"
           Sample.member_exists);
    try reflexivity.
  split; reflexivity.
Defined.

(** ** The schema of the contact form *)

Section SchemaFacts.

Variable zod : ZodRuntime.










Lemma message_field o m :
  lookup o "message" = Some (JString m) ->
  Zod.field o "message" (message_schema zod) =
    if Nat.leb 20 (String.length m) && Nat.leb (String.length m) 1000
    then inr m
    else inl (if Nat.ltb (String.length m) 20
              then [Issue "too_small" ["message"]
                      "Message must be at least 20 characters."]
              else [Issue "too_big" ["message"]
                      "Message must not exceed 1000 characters."]).
Proof.
  intros Hm.
  unfold Zod.field, message_schema, Zod.z_string, Zod.run_checks,
    Zod.length_of, Zod.min, Zod.max.
  rewrite Hm. cbn [flat_map]. rewrite at_least_length, at_most_length.
  rewrite !Nat.ltb_antisym.
  destruct (Nat.leb 20 (String.length m)) eqn:Hmin;
    destruct (Nat.leb (String.length m) 1000) eqn:Hmax; try reflexivity.
  apply Nat.leb_gt in Hmin, Hmax. lia.
Qed.

End SchemaFacts.






(** ** Validation errors in the contact handler *)




(** A body that is not an object is rejected with a single issue, at the
    empty path. *)
Lemma contactFormSchema_not_an_object zod body :
  (forall o, body <> JObject o) ->
  contactFormSchema zod body =
    inl [Issue "invalid_type" [] (invalidTypeMessage zod "object" (Some body))].
Proof.
  intros Hnot. destruct body; try reflexivity. now destruct (Hnot props).
Qed.

(** What the handler answers to a rejected payload depends on the
    [errors] property of the [ZodError]: where it holds the issues, the
    response is 400 with one entry per issue; where it is undefined, as
    with [Zod4.runtime], building the response throws and the handler
    ends without one. *)
Lemma contact_validation_response zod env world body issues :
  contactFormSchema zod body = inl issues ->
  errorsProperty zod issues = Some issues ->
  Eff.result (contact zod env world body) =
    inr (respond_errors 400 "Validation error"
           (map (fun i => {| field := JsString.join_dot (issue_path i);
                             field_message := issue_message i |}) issues)).
Proof.
  intros Hparse Herrors.
  rewrite (contact_rejected zod env world body issues Hparse), Herrors.
  reflexivity.
Qed.

Lemma contact_validation_zod4 env world body issues :
  contactFormSchema Zod4.runtime body = inl issues ->
  contact Zod4.runtime env world body = ([], inl (TypeError_undefined "map")).
Proof.
  intros Hparse.
  rewrite (contact_rejected Zod4.runtime env world body issues Hparse).
  reflexivity.
Qed.

(** ** The member identifier *)

Lemma of_code_code c : JsString.of_code (JsString.code c) = c.
Proof.
  unfold JsString.of_code, JsString.code.
  rewrite N2Z.id. apply ascii_N_embedding.
Qed.

Lemma code_inj c d : JsString.code c = JsString.code d -> c = d.
Proof.
  intros H. rewrite <- (of_code_code c), <- (of_code_code d). now rewrite H.
Qed.

Lemma lower_char_upper c d :
  JsString.is_upper c = true ->
  JsString.code d = (JsString.code c + 32)%Z ->
  JsString.lower_char c = d /\ JsString.lower_char d = d.
Proof.
  intros Hup Hcode. unfold JsString.lower_char. rewrite Hup. split.
  - rewrite <- Hcode. apply of_code_code.
  - assert (Hlow : JsString.is_upper d = false).
    { unfold JsString.is_upper in *. rewrite Hcode. lia. }
    now rewrite Hlow.
Qed.

Lemma lower_char_same c d :
  same_letter c d -> JsString.lower_char c = JsString.lower_char d.
Proof.
  intros [-> | Hup Hcode | Hup Hcode]; [reflexivity | |].
  - destruct (lower_char_upper c d Hup Hcode) as [-> ->]. reflexivity.
  - destruct (lower_char_upper d c Hup Hcode) as [-> ->]. reflexivity.
Qed.

(** Strings equal up to letter case have the same lowercase form. *)
Lemma toLowerCase_same s t :
  eq_upto_case s t -> JsString.toLowerCase s = JsString.toLowerCase t.
Proof.
  induction 1 as [|c d s t Hcd Hst IH]; simpl; [reflexivity|].
  now rewrite (lower_char_same c d Hcd), IH.
Qed.

Lemma truthy_same s t :
  eq_upto_case s t -> JsString.truthy s = JsString.truthy t.
Proof.
  destruct 1; reflexivity.
Qed.

Lemma subscriberHash_same s t :
  eq_upto_case s t -> subscriberHash s = subscriberHash t.
Proof.
  intros Hst. unfold subscriberHash. now rewrite (toLowerCase_same s t Hst).
Qed.

(** The enrollment step names the member by the digest in its lookup and
    by the email as submitted in its add. *)
Lemma enroll_hash_refs env world data :
  hash_refs (Eff.trace (enroll env world data)) =
    if configured (MAILCHIMP_AUDIENCE_ID env)
    then [subscriberHash (email data)] else [].
Proof.
  destruct (configured (MAILCHIMP_AUDIENCE_ID env)) eqn:Hc.
  - unfold configured in Hc.
    destruct (MAILCHIMP_AUDIENCE_ID env) as [list_id|] eqn:Hid; [|discriminate].
    rewrite (enroll_trace env world data list_id Hid Hc).
    destruct (getListMember world list_id _); [|reflexivity].
    destruct (addListMember world list_id _); reflexivity.
  - now rewrite (enroll_skipped env world data Hc).
Qed.

Lemma enroll_add_email env world data list_id member :
  In (AddListMember list_id member) (Eff.trace (enroll env world data)) ->
  email_address member = email data.
Proof.
  destruct (configured (MAILCHIMP_AUDIENCE_ID env)) eqn:Hc.
  - unfold configured in Hc.
    destruct (MAILCHIMP_AUDIENCE_ID env) as [l|] eqn:Hid; [|discriminate].
    rewrite (enroll_trace env world data l Hid Hc).
    destruct (getListMember world l _); simpl.
    + destruct (addListMember world l _); simpl;
        intros H; repeat (destruct H as [H|H]; try discriminate);
        try contradiction; inversion H; reflexivity.
    + intros H; repeat (destruct H as [H|H]; try discriminate); contradiction.
  - rewrite (enroll_skipped env world data Hc). intros [].
Qed.

Lemma unsubscribe_hash_refs env world address :
  hash_refs (Eff.trace (unsubscribe env world address)) =
    if JsString.truthy address && configured (MAILCHIMP_AUDIENCE_ID env)
    then [subscriberHash address] else [].
Proof.
  destruct (configured (MAILCHIMP_AUDIENCE_ID env)) eqn:Hc.
  - destruct (JsString.truthy address) eqn:Hne.
    + unfold configured in Hc.
      destruct (MAILCHIMP_AUDIENCE_ID env) as [l|] eqn:Hid; [|discriminate].
      now rewrite (unsubscribe_configured env world address l Hne Hid Hc).
    + unfold unsubscribe. rewrite Hne. reflexivity.
  - rewrite (unsubscribe_not_configured env world address Hc), andb_false_r.
    reflexivity.
Qed.

(** The test suite of RFC 1321, and an input of two blocks. *)
Example md5_test_suite :
  map Md5.md5_hex ["" ; "a"; "abc"; "message digest"; "abcdefghijklmnopqrstuvwxyz"]
  = [ "d41d8cd98f00b204e9800998ecf8427e"; "0cc175b9c0f1b6a831c399e269772661";
      "900150983cd24fb0d6963f7d28e17f72"; "f96b697d7cb7938d525a2f31aaf161d0";
      "c3fcd3d76192e4007dfb496cca67e13b" ]
  /\ Md5.md5_hex (JsString.replicate 64 "a") = "014842d480b571495a4a0363793f7367"
  /\ subscriberHash "User@Example.com" = "b58996c504c5638798eb6b511e6f49af".
Proof.
  repeat split; vm_compute; reflexivity.
Qed.

(** The digest is printed as 32 lowercase hexadecimal digits. *)
Lemma le_bytes_length n x : List.length (Md5.le_bytes n x) = n.
Proof.
  revert x. induction n as [|n IH]; intros x; simpl; [reflexivity|].
  now rewrite IH.
Qed.

Lemma le_bytes_range n x :
  Forall (fun b => 0 <= b < 256)%Z (Md5.le_bytes n x).
Proof.
  revert x. induction n as [|n IH]; intros x; simpl; constructor.
  - apply Z.mod_pos_bound. lia.
  - apply IH.
Qed.

Lemma digest_bytes bs :
  List.length (Md5.digest bs) = 16
  /\ Forall (fun b => 0 <= b < 256)%Z (Md5.digest bs).
Proof.
  unfold Md5.digest.
  destruct (Md5.blocks _ Md5.init (Md5.pad bs)) as [a b c d].
  split.
  - rewrite !length_app, !le_bytes_length. reflexivity.
  - rewrite !Forall_app. repeat split; apply le_bytes_range.
Qed.

Lemma hex_digit_lower k :
  (0 <= k < 16)%Z ->
  In (Md5.hex_digit k) (list_ascii_of_string "0123456789abcdef").
Proof.
  intros Hk. unfold Md5.hex_digit. apply nth_In. simpl List.length. lia.
Qed.

Lemma hex_format bs :
  Forall (fun b => 0 <= b < 256)%Z bs ->
  String.length (Md5.hex bs) = 2 * List.length bs
  /\ every (fun c => In c (list_ascii_of_string "0123456789abcdef")) (Md5.hex bs).
Proof.
  unfold every. induction 1 as [|b r Hb Hr [IHlen IHall]].
  - split; [reflexivity | constructor].
  - split.
    + cbn [Md5.hex String.length List.length]. rewrite IHlen. lia.
    + cbn [Md5.hex list_ascii_of_string].
      constructor; [|constructor; [|exact IHall]]; apply hex_digit_lower.
      * split; [apply Z.div_pos; lia | apply Z.div_lt_upper_bound; lia].
      * apply Z.mod_pos_bound. lia.
Qed.

Lemma subscriberHash_format address :
  String.length (subscriberHash address) = 32
  /\ every (fun c => In c (list_ascii_of_string "0123456789abcdef"))
       (subscriberHash address).
Proof.
  unfold subscriberHash, Md5.md5_hex.
  destruct (digest_bytes (Md5.utf8 (JsString.toLowerCase address))) as [Hlen Hall].
  destruct (hex_format _ Hall) as [Hhex Hchars].
  rewrite Hlen in Hhex. auto.
Qed.

(** C5, as the specification states it, fails for the add: the two
    addresses below are equal up to letter case and get the same digest in
    the lookup, but the add-member calls name the member by the address as
    submitted, which differs. *)
Lemma add_member_keeps_letter_case :
  eq_upto_case "User@Example.com" "user@example.com"
  /\ member_refs
       (Eff.trace (contact Zod4.runtime Sample.env_full Sample.world_new_member
                     (JObject (Sample.jane "User@Example.com")))) =
     ["b58996c504c5638798eb6b511e6f49af"; "User@Example.com"]
  /\ member_refs
       (Eff.trace (contact Zod4.runtime Sample.env_full Sample.world_new_member
                     (JObject (Sample.jane "user@example.com")))) =
     ["b58996c504c5638798eb6b511e6f49af"; "user@example.com"]
  /\ member_refs
       (Eff.trace (contact Zod4.runtime Sample.env_full Sample.world_new_member
                     (JObject (Sample.jane "User@Example.com")))) <>
     member_refs
       (Eff.trace (contact Zod4.runtime Sample.env_full Sample.world_new_member
                     (JObject (Sample.jane "user@example.com")))).
Proof.
  split.
  - repeat (apply euc_step;
            [first [apply same_unit; reflexivity
                   | apply upper_lower; reflexivity]|]).
    apply euc_empty.
  - split; [vm_compute; reflexivity|].
    split; [vm_compute; reflexivity|].
    vm_compute. discriminate.
Qed.

(** C5, amended.  Two addresses equal up to letter case have the same
    member identifier, the lowercase hexadecimal md5 digest of the
    lowercased address; the lookup of the contact flow and the update of
    the unsubscribe endpoint both name the member by this digest, so they
    name the same member for both addresses.  The add-member call is
    given the address as submitted, not the digest. *)
Theorem member_digest_ignores_case e1 e2 :
  eq_upto_case e1 e2 ->
  subscriberHash e1 = subscriberHash e2
  /\ String.length (subscriberHash e1) = 32
  /\ every (fun c => In c (list_ascii_of_string "0123456789abcdef"))
       (subscriberHash e1)
  /\ (forall env world, unsubscribe env world e1 = unsubscribe env world e2)
  /\ (forall env world address,
        JsString.truthy address = true ->
        configured (MAILCHIMP_AUDIENCE_ID env) = true ->
        hash_refs (Eff.trace (unsubscribe env world address)) =
          [Md5.md5_hex (JsString.toLowerCase address)])
  /\ (forall env world data,
        configured (MAILCHIMP_AUDIENCE_ID env) = true ->
        hash_refs (Eff.trace (enroll env world data)) =
          [Md5.md5_hex (JsString.toLowerCase (email data))])
  /\ (forall env world1 world2 data1 data2,
        email data1 = e1 -> email data2 = e2 ->
        hash_refs (Eff.trace (enroll env world1 data1)) =
        hash_refs (Eff.trace (enroll env world2 data2)))
  /\ (forall env world data list_id member,
        In (AddListMember list_id member) (Eff.trace (enroll env world data)) ->
        email_address member = email data).
Proof.
  intros Hsame.
  pose proof (subscriberHash_same e1 e2 Hsame) as Hhash.
  split; [exact Hhash|].
  split; [apply subscriberHash_format|].
  split; [apply subscriberHash_format|].
  split.
  { intros env world. unfold unsubscribe.
    rewrite (truthy_same e1 e2 Hsame), (toLowerCase_same e1 e2 Hsame).
    reflexivity. }
  split.
  { intros env world address Hne Hc.
    rewrite unsubscribe_hash_refs, Hne, Hc. reflexivity. }
  split.
  { intros env world data Hc. rewrite enroll_hash_refs, Hc. reflexivity. }
  split.
  { intros env world1 world2 data1 data2 H1 H2.
    rewrite !enroll_hash_refs, H1, H2, Hhash. reflexivity. }
  intros env world data list_id member. apply enroll_add_email.
Qed.

Lemma member_digest_ignores_case_witness :
  eq_upto_case "User@Example.com" "user@example.com"
  /\ subscriberHash "User@Example.com" = subscriberHash "user@example.com".
Proof.
  assert (Hsame : eq_upto_case "User@Example.com" "user@example.com").
  { repeat (apply euc_step;
            [first [apply same_unit; reflexivity
                   | apply upper_lower; reflexivity]|]).
    apply euc_empty. }
  split; [exact Hsame|].
  apply (member_digest_ignores_case "User@Example.com" "user@example.com" Hsame).
Defined.

(** ** Splitting the name *)

Section Split.

Variable sep : ascii -> bool.

Lemma split_on_cons s : exists p ps, JsString.split_on sep s = p :: ps.
Proof.
  destruct s as [|c r]; simpl; [eauto|].
  destruct (sep c); [eauto|].
  destruct (JsString.split_on sep r); eauto.
Qed.

(** A text without separator is a single piece. *)
Lemma split_on_none s :
  every (fun c => sep c = false) s -> JsString.split_on sep s = [s].
Proof.
  unfold every. induction s as [|c r IH]; simpl; intros Hall; [reflexivity|].
  inversion Hall as [|? ? Hc Hr]; subst.
  rewrite Hc, (IH Hr). reflexivity.
Qed.

(** The first piece ends at the first separator. *)
Lemma split_on_first a c b :
  every (fun x => sep x = false) a -> sep c = true ->
  JsString.split_on sep (a ++ String c b) = a :: JsString.split_on sep b.
Proof.
  unfold every. induction a as [|x r IH]; simpl; intros Hall Hc.
  - now rewrite Hc.
  - inversion Hall as [|? ? Hx Hr]; subst.
    rewrite Hx, (IH Hr Hc). reflexivity.
Qed.

Lemma split_on_hd s :
  every (fun c => sep c = false) (hd "" (JsString.split_on sep s)).
Proof.
  unfold every. induction s as [|c r IH]; simpl; [constructor|].
  destruct (sep c) eqn:Hc; simpl; [constructor|].
  destruct (JsString.split_on sep r) as [|p ps]; simpl in *.
  - repeat constructor. exact Hc.
  - constructor; assumption.
Qed.

(** Two separators that agree on a text split it alike. *)
Lemma split_on_agree (sep' : ascii -> bool) s :
  every (fun c => sep' c = sep c) s ->
  JsString.split_on sep' s = JsString.split_on sep s.
Proof.
  unfold every. induction s as [|c r IH]; simpl; intros Hall; [reflexivity|].
  inversion Hall as [|? ? Hc Hr]; subst.
  rewrite Hc, (IH Hr). reflexivity.
Qed.

End Split.

(** Joining the pieces with the separator gives the text back. *)
Lemma join_split_space s :
  JsString.join " " (JsString.split_space s) = s.
Proof.
  unfold JsString.split_space.
  induction s as [|c r IH]; [reflexivity|].
  simpl JsString.split_on.
  destruct (split_on_cons JsString.is_space r) as [p [ps Hr]].
  rewrite Hr in *.
  destruct (JsString.is_space c) eqn:Hc.
  - unfold JsString.is_space in Hc. apply Ascii.eqb_eq in Hc. subst c.
    change (JsString.join " " ("" :: p :: ps))
      with (String " " (JsString.join " " (p :: ps))).
    now rewrite IH.
  - destruct ps as [|q qs]; simpl in *; now rewrite IH.
Qed.

Lemma or_else_some s : JsString.or_else (Some s) "" = s.
Proof.
  destruct s; reflexivity.
Qed.

Lemma firstName_of_hd name :
  firstName_of name = hd "" (JsString.split_space name).
Proof.
  unfold firstName_of.
  destruct (JsString.split_space name) as [|p ps]; [reflexivity|].
  apply or_else_some.
Qed.

Lemma lastName_of_tl name :
  lastName_of name = JsString.join " " (tl (JsString.split_space name)).
Proof.
  apply or_else_some.
Qed.

(** The first name is the text before the first space, the last name all
    the text after it. *)
Lemma name_without_space name :
  every (fun c => JsString.is_space c = false) name ->
  firstName_of name = name /\ lastName_of name = "".
Proof.
  intros Hall. rewrite firstName_of_hd, lastName_of_tl.
  unfold JsString.split_space.
  rewrite (split_on_none JsString.is_space name Hall). auto.
Qed.

Lemma name_with_space a b :
  every (fun c => JsString.is_space c = false) a ->
  firstName_of (a ++ " " ++ b) = a /\ lastName_of (a ++ " " ++ b) = b.
Proof.
  intros Hall. rewrite firstName_of_hd, lastName_of_tl.
  unfold JsString.split_space.
  change (a ++ " " ++ b)%string with (a ++ String " " b)%string.
  rewrite (split_on_first JsString.is_space a " " b Hall eq_refl).
  split; [reflexivity|]. apply join_split_space.
Qed.

(** On a single-spaced name the code and the wording of the
    specification agree. *)
Lemma single_spaced_agree name :
  single_spaced name ->
  firstName_of name = SpecWords.first_name name
  /\ lastName_of name = SpecWords.last_name name.
Proof.
  intros [Hws Hpieces].
  rewrite firstName_of_hd, lastName_of_tl.
  unfold SpecWords.first_name, SpecWords.last_name, SpecWords.tokens.
  rewrite (split_on_agree JsString.is_space SpecWords.is_whitespace name Hws).
  fold (JsString.split_space name).
  assert (Hfilter : filter JsString.truthy (JsString.split_space name)
                    = JsString.split_space name).
  { induction Hpieces as [|p ps Hp _ IH]; simpl; [reflexivity|].
    now rewrite Hp, IH. }
  rewrite Hfilter. auto.
Qed.

(** C8, as the specification states it, fails: the name is split at
    single spaces, not on whitespace.  With two spaces between the words
    the last name keeps the second one; with a tab between them the whole
    name is the first name. *)
Lemma name_split_only_at_spaces :
  SpecWords.last_name "Jane  Public" = "Public"
  /\ In (AddListMember "list-1"
           {| email_address := "jane@example.com";
              status := "subscribed";
              merge_fields := {| FNAME := "Jane"; LNAME := " Public";
                                 PHONE := Some "0123456789" |};
              tags := Some ["contact-form"] |})
        (Eff.trace
           (contact Zod4.runtime Sample.env_full Sample.world_new_member
              (JObject (Sample.payload "Jane  Public" "jane@example.com"
                          "0123456789" "sales" (Sample.text 20) true))))
  /\ SpecWords.first_name ("Jane" ++ String (ascii_of_nat 9) "Public") = "Jane"
  /\ SpecWords.last_name ("Jane" ++ String (ascii_of_nat 9) "Public") = "Public"
  /\ firstName_of ("Jane" ++ String (ascii_of_nat 9) "Public") =
       ("Jane" ++ String (ascii_of_nat 9) "Public")%string
  /\ lastName_of ("Jane" ++ String (ascii_of_nat 9) "Public") = "".
Proof.
  split; [reflexivity|].
  split; [vm_compute; auto 10|].
  repeat split.
Qed.

(** C8, amended.  When the lookup of the member of a validated submission
    fails, the member is created with the submitted address, status
    subscribed, the merge fields first name, last name and phone, and the
    tag contact-form.  The name is split at each space character: the
    first name is the text before the first space and the last name is
    the text after it, which is the remaining pieces joined by single
    spaces (empty when the name has no space).  "Jane Q Public" gives
    "Jane" and "Q Public", and on names whose only whitespace is single
    spaces between words this is the split on whitespace. *)
Theorem contact_adds_member zod env world body data list_id err :
  contactFormSchema zod body = inr data ->
  sendMail world (mailOptions env data) = None ->
  MAILCHIMP_AUDIENCE_ID env = Some list_id ->
  JsString.truthy list_id = true ->
  getListMember world list_id (subscriberHash (email data)) = Some err ->
  In (AddListMember list_id
        {| email_address := email data;
           status := "subscribed";
           merge_fields := {| FNAME := firstName_of (name data);
                              LNAME := lastName_of (name data);
                              PHONE := Some (phone data) |};
           tags := Some ["contact-form"] |})
     (Eff.trace (contact zod env world body))
  /\ firstName_of (name data) = hd "" (JsString.split_space (name data))
  /\ lastName_of (name data) =
       JsString.join " " (tl (JsString.split_space (name data)))
  /\ (every (fun c => JsString.is_space c = false) (name data) ->
      firstName_of (name data) = name data /\ lastName_of (name data) = "")
  /\ (forall a b,
        every (fun c => JsString.is_space c = false) a ->
        name data = (a ++ " " ++ b)%string ->
        firstName_of (name data) = a /\ lastName_of (name data) = b)
  /\ (single_spaced (name data) ->
      firstName_of (name data) = SpecWords.first_name (name data)
      /\ lastName_of (name data) = SpecWords.last_name (name data))
  /\ firstName_of "Jane Q Public" = "Jane"
  /\ lastName_of "Jane Q Public" = "Q Public".
Proof.
  intros Hparse Hsent Hid Hok Hlookup.
  split.
  { rewrite (contact_accepted zod env world body data Hparse), Hsent.
    unfold Eff.trace at 1; cbn [fst].
    rewrite (enroll_trace env world data list_id Hid Hok), Hlookup.
    simpl. auto 10. }
  split; [apply firstName_of_hd|].
  split; [apply lastName_of_tl|].
  split; [apply name_without_space|].
  split; [intros a b Ha ->; now apply name_with_space|].
  split; [apply single_spaced_agree|].
  split; reflexivity.
Qed.

Lemma contact_adds_member_witness :
  getListMember Sample.world_new_member "list-1"
    (subscriberHash "jane@example.com") =
    Some (Sample.plain_error "Resource Not Found")
  /\ In (AddListMember "list-1"
           {| email_address := "jane@example.com";
              status := "subscribed";
              merge_fields := {| FNAME := "Jane"; LNAME := "Q Public";
                                 PHONE := Some "0123456789" |};
              tags := Some ["contact-form"] |})
        (Eff.trace
           (contact Zod4.runtime Sample.env_full Sample.world_new_member
              (JObject (Sample.jane "jane@example.com")))).
Proof.
  split; [reflexivity|].
  apply (contact_adds_member Zod4.runtime Sample.env_full Sample.world_new_member
           (JObject (Sample.jane "jane@example.com"))
           (Sample.jane_data "jane@example.com") "list-1"
           (Sample.plain_error "Resource Not Found"));
    vm_compute; reflexivity.
Defined.

(** * Further properties of the code *)

(** ** What the schema accepts *)

Section FieldFacts.

Variable zod : ZodRuntime.

Lemma string_min_field o key n msg s :
  Zod.field o key (Zod.z_string zod None [Zod.min n msg]) = inr s <->
  lookup o key = Some (JString s) /\ (n <= String.length s)%nat.
Proof.
  unfold Zod.field, Zod.z_string.
  destruct (lookup o key) as [[| | |s0| |]|];
    try (split; [discriminate | intros [Hl _]; discriminate]).
  unfold Zod.run_checks, Zod.length_of, Zod.min. cbn [flat_map].
  rewrite at_least_length.
  destruct (Nat.leb n (String.length s0)) eqn:Hle; cbn.
  - apply Nat.leb_le in Hle. split.
    + intros Heq. inversion Heq; subst. split; [reflexivity | exact Hle].
    + intros [Hl _]. inversion Hl; subst. reflexivity.
  - apply Nat.leb_gt in Hle. split; [discriminate|].
    intros [Hl Hn]. inversion Hl; subst. lia.
Qed.

Lemma email_field o s :
  Zod.field o "email" (email_schema zod) = inr s <->
  lookup o "email" = Some (JString s) /\ isEmail zod s = true.
Proof.
  unfold Zod.field, email_schema, Zod.z_email.
  destruct (lookup o "email") as [[| | |s0| |]|];
    try (split; [discriminate | intros [Hl _]; discriminate]).
  destruct (isEmail zod s0) eqn:He; split.
  - intros Heq. inversion Heq; subst. auto.
  - intros [Hl _]. inversion Hl; subst. reflexivity.
  - discriminate.
  - intros [Hl Hs]. inversion Hl; subst. congruence.
Qed.

Lemma contactAbout_field o s :
  Zod.field o "contactAbout" (contactAbout_schema zod) = inr s <->
  lookup o "contactAbout" = Some (JString s).
Proof.
  unfold Zod.field, contactAbout_schema, Zod.z_string.
  destruct (lookup o "contactAbout") as [[| | |s0| |]|];
    try (split; discriminate).
  cbn. split; intros Heq; inversion Heq; reflexivity.
Qed.

Lemma message_field_iff o s :
  Zod.field o "message" (message_schema zod) = inr s <->
  lookup o "message" = Some (JString s)
  /\ (20 <= String.length s <= 1000)%nat.
Proof.
  destruct (lookup o "message") as [[| | |s0| |]|] eqn:Hl;
    try (unfold Zod.field, message_schema, Zod.z_string; rewrite Hl;
         split; [discriminate | intros [Hs _]; discriminate]).
  rewrite (message_field zod o s0 Hl).
  destruct (Nat.leb 20 (String.length s0)) eqn:Hmin;
    destruct (Nat.leb (String.length s0) 1000) eqn:Hmax; cbn [andb];
    try apply Nat.leb_le in Hmin; try apply Nat.leb_le in Hmax;
    try apply Nat.leb_gt in Hmin; try apply Nat.leb_gt in Hmax.
  - split.
    + intros Heq. inversion Heq; subst. split; [reflexivity | lia].
    + intros [Hs _]. inversion Hs; subst. reflexivity.
  - split; [discriminate | intros [Hs Hb]; inversion Hs; subst; lia].
  - split; [discriminate | intros [Hs Hb]; inversion Hs; subst; lia].
  - split; [discriminate | intros [Hs Hb]; inversion Hs; subst; lia].
Qed.

Lemma agreeToPolicy_field o b :
  Zod.field o "agreeToPolicy" (agreeToPolicy_schema zod) = inr b <->
  lookup o "agreeToPolicy" = Some (JBool true) /\ b = true.
Proof.
  unfold Zod.field, agreeToPolicy_schema, Zod.z_boolean_refine.
  destruct (lookup o "agreeToPolicy") as [[| [] | | | |]|]; cbn;
    try (split; [discriminate | intros [Hl _]; discriminate]).
  split.
  - intros Heq. inversion Heq; subst. auto.
  - intros [_ ->]. reflexivity.
Qed.

End FieldFacts.

(** X1.  An object payload is accepted exactly when each of the six keys
    holds a value of the right type within its bounds, and the record
    that [parse] returns then holds these six values unchanged. *)
Theorem contactFormSchema_accepts_iff zod o data :
  contactFormSchema zod (JObject o) = inr data <->
  (lookup o "name" = Some (JString (name data))
   /\ (2 <= String.length (name data))%nat)
  /\ (lookup o "email" = Some (JString (email data))
      /\ isEmail zod (email data) = true)
  /\ (lookup o "phone" = Some (JString (phone data))
      /\ (10 <= String.length (phone data))%nat)
  /\ lookup o "contactAbout" = Some (JString (contactAbout data))
  /\ (lookup o "message" = Some (JString (message data))
      /\ (20 <= String.length (message data) <= 1000)%nat)
  /\ (lookup o "agreeToPolicy" = Some (JBool true)
      /\ agreeToPolicy data = true).
Proof.
  rewrite <- (string_min_field zod o "name" 2
                "Name must be at least 2 characters.").
  rewrite <- (string_min_field zod o "phone" 10
                "Please enter a valid phone number.").
  rewrite <- (email_field zod), <- (contactAbout_field zod),
    <- (message_field_iff zod), <- (agreeToPolicy_field zod).
  fold (name_schema zod). fold (phone_schema zod).
  unfold contactFormSchema.
  destruct (Zod.field o "name" _) as [i1|v1],
    (Zod.field o "email" _) as [i2|v2],
    (Zod.field o "phone" _) as [i3|v3],
    (Zod.field o "contactAbout" _) as [i4|v4],
    (Zod.field o "message" _) as [i5|v5],
    (Zod.field o "agreeToPolicy" _) as [i6|v6];
    cbn; (split; [intros Heq | intros (H1 & H2 & H3 & H4 & H5 & H6)]);
    try congruence.
  - inversion Heq; subst; cbn. repeat split; reflexivity.
  - destruct data; cbn in *. congruence.
Qed.

(** Only an object is accepted, and the accepted record has agreed to
    the policies. *)
Lemma accepted_is_object zod body data :
  contactFormSchema zod body = inr data ->
  exists o, body = JObject o.
Proof.
  destruct body; try discriminate. eauto.
Qed.

Lemma accepted_has_agreed zod body data :
  contactFormSchema zod body = inr data -> agreeToPolicy data = true.
Proof.
  intros Hparse.
  destruct (accepted_is_object zod body data Hparse) as [o ->].
  assert (Hfield : Zod.field o "agreeToPolicy" (agreeToPolicy_schema zod)
                   = inr (agreeToPolicy data)).
  { revert Hparse. unfold contactFormSchema.
    destruct (Zod.field o "name" _), (Zod.field o "email" _),
      (Zod.field o "phone" _), (Zod.field o "contactAbout" _),
      (Zod.field o "message" _), (Zod.field o "agreeToPolicy" _);
      cbn; intros Heq; try discriminate.
    inversion Heq; subst. reflexivity. }
  apply agreeToPolicy_field in Hfield. tauto.
Qed.




(** X3.  The handler reads the six keys of the schema and nothing else:
    two object payloads that agree on them, whatever their other keys and
    the order of their keys, are parsed alike and handled alike. *)
Theorem contact_reads_six_keys zod env world o o' :
  (forall key, In key schema_keys -> lookup o key = lookup o' key) ->
  contactFormSchema zod (JObject o) = contactFormSchema zod (JObject o')
  /\ contact zod env world (JObject o) = contact zod env world (JObject o').
Proof.
  intros Hsame.
  assert (Hparse : contactFormSchema zod (JObject o)
                   = contactFormSchema zod (JObject o')).
  { unfold contactFormSchema, Zod.field.
    rewrite (Hsame "name"), (Hsame "email"), (Hsame "phone"),
      (Hsame "contactAbout"), (Hsame "message"), (Hsame "agreeToPolicy");
      first [reflexivity | unfold schema_keys; simpl; auto 10]. }
  split; [exact Hparse|].
  unfold contact. now rewrite Hparse.
Qed.

Lemma contact_reads_six_keys_witness :
  (forall key, In key schema_keys ->
     lookup (Sample.jane "jane@example.com") key =
     lookup (MoreSamples.jane_shuffled "jane@example.com") key)
  /\ contactFormSchema Zod4.runtime
       (JObject (MoreSamples.jane_shuffled "jane@example.com")) =
     inr (Sample.jane_data "jane@example.com").
Proof.
  assert (Hsame : forall key, In key schema_keys ->
            lookup (Sample.jane "jane@example.com") key =
            lookup (MoreSamples.jane_shuffled "jane@example.com") key).
  { intros key Hin. unfold schema_keys in Hin. simpl in Hin.
    repeat (destruct Hin as [<-|Hin]; [reflexivity|]). contradiction. }
  split; [exact Hsame|].
  rewrite <- (proj1 (contact_reads_six_keys Zod4.runtime Sample.env_full
                       Sample.world_ok _ _ Hsame)).
  vm_compute. reflexivity.
Defined.

(** ** The contact handler as a whole *)

(** The enrollment step calls the audience service and the console only. *)
Lemma enroll_no_mail env world data :
  mails (Eff.trace (enroll env world data)) = [].
Proof.
  destruct (configured (MAILCHIMP_AUDIENCE_ID env)) eqn:Hc.
  - unfold configured in Hc.
    destruct (MAILCHIMP_AUDIENCE_ID env) as [list_id|] eqn:Hid; [|discriminate].
    rewrite (enroll_trace env world data list_id Hid Hc).
    destruct (getListMember world list_id _); [|reflexivity].
    destruct (addListMember world list_id _); reflexivity.
  - now rewrite (enroll_skipped env world data Hc).
Qed.

Lemma mails_in t options :
  In (SendMail options) t -> In (SendMail options) (mails t).
Proof.
  intros Hin. apply filter_In. split; [exact Hin | reflexivity].
Qed.

(** X4.  The mail transport is called only with a submission that passed
    validation: every mail in a trace of the handler is the notification
    of the accepted record, which has agreed to the policies, with the
    submitter as reply-to address.  The handler sends at most one mail;
    for an accepted payload the mail is its first call, before any call
    to the audience service, and for a rejected payload it calls
    nothing. *)
Theorem contact_mails_validated_submission zod env world body :
  (forall options,
     In (SendMail options) (Eff.trace (contact zod env world body)) ->
     exists data,
       contactFormSchema zod body = inr data
       /\ options = mailOptions env data
       /\ replyTo options = email data
       /\ agreeToPolicy data = true)
  /\ (List.length (mails (Eff.trace (contact zod env world body))) <= 1)%nat
  /\ (forall data,
        contactFormSchema zod body = inr data ->
        exists rest,
          Eff.trace (contact zod env world body) =
            SendMail (mailOptions env data) :: rest
          /\ mails rest = [])
  /\ (forall issues,
        contactFormSchema zod body = inl issues ->
        Eff.trace (contact zod env world body) = []).
Proof.
  assert (Hvalid : forall data,
            contactFormSchema zod body = inr data ->
            exists rest,
              Eff.trace (contact zod env world body) =
                SendMail (mailOptions env data) :: rest
              /\ mails rest = []).
  { intros data Hparse.
    rewrite (contact_accepted zod env world body data Hparse).
    destruct (sendMail world (mailOptions env data)); eexists;
      (split; [reflexivity|]); [reflexivity | apply enroll_no_mail]. }
  assert (Hinvalid : forall issues,
            contactFormSchema zod body = inl issues ->
            Eff.trace (contact zod env world body) = []).
  { intros issues Hparse.
    now rewrite (contact_rejected zod env world body issues Hparse). }
  split; [|split; [|split; [exact Hvalid | exact Hinvalid]]].
  - intros options Hin.
    destruct (contactFormSchema zod body) as [issues|data] eqn:Hparse.
    + rewrite (Hinvalid issues eq_refl) in Hin. destruct Hin.
    + destruct (Hvalid data eq_refl) as [rest [Htrace Hrest]].
      rewrite Htrace in Hin. apply mails_in in Hin.
      change (In (SendMail options)
                 (SendMail (mailOptions env data) :: mails rest)) in Hin.
      rewrite Hrest in Hin.
      destruct Hin as [Heq|[]]. inversion Heq; subst.
      exists data. repeat split.
      apply (accepted_has_agreed zod body data Hparse).
  - destruct (contactFormSchema zod body) as [issues|data] eqn:Hparse.
    + rewrite (Hinvalid issues eq_refl). cbn. lia.
    + destruct (Hvalid data eq_refl) as [rest [Htrace Hrest]].
      rewrite Htrace.
      change (List.length (SendMail (mailOptions env data) :: mails rest) <= 1)%nat.
      rewrite Hrest. cbn. lia.
Qed.

(** X5.  Enrollment checks before it adds.  With a list configured, an
    accepted and notified submission leads to one lookup by the digest of
    the address; a member that is found is left alone (no add, no update,
    nothing logged), and only a failed lookup is followed by one add, on
    the same list. *)
Theorem enrollment_checks_before_adding zod env world body data list_id :
  contactFormSchema zod body = inr data ->
  sendMail world (mailOptions env data) = None ->
  MAILCHIMP_AUDIENCE_ID env = Some list_id ->
  JsString.truthy list_id = true ->
  audience_calls (Eff.trace (contact zod env world body)) =
    GetListMember list_id (subscriberHash (email data))
    :: match getListMember world list_id (subscriberHash (email data)) with
       | None => []
       | Some _ => [AddListMember list_id (contact_member data)]
       end
  /\ (getListMember world list_id (subscriberHash (email data)) = None ->
      Eff.trace (contact zod env world body) =
        [SendMail (mailOptions env data);
         Digest "md5" (JsString.toLowerCase (email data));
         GetListMember list_id (subscriberHash (email data))]).
Proof.
  intros Hparse Hsent Hid Hok.
  rewrite (contact_accepted zod env world body data Hparse), Hsent.
  unfold Eff.trace at 1 3; cbn [fst].
  rewrite (enroll_trace env world data list_id Hid Hok).
  split.
  - destruct (getListMember world list_id _); [|reflexivity].
    destruct (addListMember world list_id _); reflexivity.
  - intros ->. reflexivity.
Qed.

Lemma enrollment_checks_before_adding_witness :
  getListMember Sample.world_ok "list-1" (subscriberHash "jane@example.com")
    = None
  /\ audience_calls
       (Eff.trace (contact Zod4.runtime Sample.env_full Sample.world_ok
                     (JObject (Sample.jane "jane@example.com")))) =
     [GetListMember "list-1" (subscriberHash "jane@example.com")].
Proof.
  split; [reflexivity|].
  refine (proj1 (enrollment_checks_before_adding Zod4.runtime Sample.env_full
                   Sample.world_ok (JObject (Sample.jane "jane@example.com"))
                   (Sample.jane_data "jane@example.com") "list-1" _ _ _ _));
    vm_compute; reflexivity.
Defined.

(** X6.  The response of the contact handler depends on the payload, on
    the mail settings and on the answer of the mail transport only:
    neither the audience list that is configured, if any, nor any answer
    of the audience service changes it. *)
Theorem contact_response_ignores_audience zod env1 env2 world1 world2 body :
  GMAIL_USER env1 = GMAIL_USER env2 ->
  CONTACT_FORM_RECIPIENT env1 = CONTACT_FORM_RECIPIENT env2 ->
  (forall options, sendMail world1 options = sendMail world2 options) ->
  Eff.result (contact zod env1 world1 body) =
  Eff.result (contact zod env2 world2 body).
Proof.
  intros Huser Hrcpt Hmail.
  destruct (contactFormSchema zod body) as [issues|data] eqn:Hparse.
  - now rewrite (contact_rejected zod env1 world1 body issues Hparse),
      (contact_rejected zod env2 world2 body issues Hparse).
  - rewrite (contact_accepted zod env1 world1 body data Hparse),
      (contact_accepted zod env2 world2 body data Hparse).
    assert (Hopts : mailOptions env1 data = mailOptions env2 data).
    { unfold mailOptions. now rewrite Huser, Hrcpt. }
    rewrite Hopts, Hmail.
    destruct (sendMail world2 (mailOptions env2 data)); reflexivity.
Qed.

Lemma contact_response_ignores_audience_witness :
  (forall options,
     sendMail Sample.world_ok options = sendMail Sample.world_audience_down options)
  /\ Eff.result (contact Zod4.runtime Sample.env_full Sample.world_ok
                   (JObject (Sample.jane "jane@example.com"))) =
     Eff.result (contact Zod4.runtime MoreSamples.env_other_list
                   Sample.world_audience_down
                   (JObject (Sample.jane "jane@example.com"))).
Proof.
  split; [reflexivity|].
  apply (contact_response_ignores_audience Zod4.runtime Sample.env_full
           MoreSamples.env_other_list Sample.world_ok Sample.world_audience_down);
    reflexivity.
Defined.


(** ** The standalone endpoints as a whole *)

(** An absent or empty name is sent as the empty string. *)
Lemma or_else_default a :
  JsString.or_else a "" = match a with Some s => s | None => "" end.
Proof.
  destruct a as [s|]; [apply or_else_some | reflexivity].
Qed.

(** X8.  A subscribe request with an email, on a configured list, makes
    one add-member call and, when the service accepts it, answers 201
    with the member status that the service returned.  The address is
    passed as given (not lowercased, not validated), with status
    subscribed, the given first and last name or the empty string where
    one is absent, no phone and no tag. *)
Theorem subscribe_adds_member_as_given env world req address list_id st :
  sub_email req = Some address -> JsString.truthy address = true ->
  MAILCHIMP_AUDIENCE_ID env = Some list_id -> JsString.truthy list_id = true ->
  addListMember world list_id (subscribe_member req address) = inr st ->
  subscribe env world req =
    ([AddListMember list_id
        {| email_address := address;
           status := "subscribed";
           merge_fields :=
             {| FNAME := match firstName req with Some n => n | None => "" end;
                LNAME := match lastName req with Some n => n | None => "" end;
                PHONE := None |};
           tags := None |}],
     inr (respond_status 201 "Successfully subscribed to newsletter!" st)).
Proof.
  intros He Hne Hl Hnl Hadd.
  rewrite (subscribe_configured env world req address list_id He Hne Hl Hnl), Hadd.
  unfold subscribe_member. now rewrite !or_else_default.
Qed.

Lemma subscribe_adds_member_as_given_witness :
  addListMember Sample.world_ok "list-1"
    (subscribe_member MoreSamples.subscribe_request "Jane@Example.com")
    = inr "subscribed"
  /\ subscribe Sample.env_full Sample.world_ok MoreSamples.subscribe_request =
     ([AddListMember "list-1"
         {| email_address := "Jane@Example.com";
            status := "subscribed";
            merge_fields := {| FNAME := ""; LNAME := "Public"; PHONE := None |};
            tags := None |}],
      inr (respond_status 201 "Successfully subscribed to newsletter!"
             "subscribed")).
Proof.
  split; [reflexivity|].
  apply (subscribe_adds_member_as_given Sample.env_full Sample.world_ok
           MoreSamples.subscribe_request "Jane@Example.com" "list-1" "subscribed");
    reflexivity.
Defined.

(** The two situations of the subscribe handler. *)
Lemma subscribe_off env world req :
  configured (sub_email req) && configured (MAILCHIMP_AUDIENCE_ID env) = false ->
  subscribe env world req =
    ([], inr (if configured (sub_email req)
              then respond 500 false "Mailchimp audience ID is not configured"
              else respond 400 false "Email is required")).
Proof.
  unfold subscribe, configured.
  destruct (sub_email req) as [a|]; [|reflexivity].
  destruct (JsString.truthy a); [|reflexivity].
  destruct (MAILCHIMP_AUDIENCE_ID env) as [l|]; [|reflexivity].
  destruct (JsString.truthy l); [discriminate | reflexivity].
Qed.

Lemma subscribe_on env world req :
  configured (sub_email req) && configured (MAILCHIMP_AUDIENCE_ID env) = true ->
  exists address list_id,
    sub_email req = Some address /\ MAILCHIMP_AUDIENCE_ID env = Some list_id
    /\ subscribe env world req =
         ([AddListMember list_id (subscribe_member req address)],
          match addListMember world list_id (subscribe_member req address) with
          | inr st =>
              inr (respond_status 201 "Successfully subscribed to newsletter!" st)
          | inl err =>
              inr (if strict_eq_number (err_status err) 400
                      && strict_eq_string (response_body_title err) "Member Exists"
                   then respond 400 false
                          "This email is already subscribed to the newsletter"
                   else respond_error 500 "Failed to subscribe to newsletter"
                          (err_message err))
          end).
Proof.
  unfold configured. intros Hc.
  destruct (sub_email req) as [a|] eqn:He; [|discriminate].
  destruct (MAILCHIMP_AUDIENCE_ID env) as [l|] eqn:Hl;
    [|rewrite andb_false_r in Hc; discriminate].
  apply andb_true_iff in Hc as [Hne Hnl].
  exists a, l. repeat split.
  apply (subscribe_configured env world req a l He Hne Hl Hnl).
Qed.

(** X9.  The subscribe handler always answers, with status 201, 400 or
    500, whatever the audience service does.  It calls the service
    exactly when the request carries an email and a list is configured,
    and then once, with an add: it computes no digest and looks no member
    up. *)
Theorem subscribe_always_answers env world req :
  (exists r, Eff.result (subscribe env world req) = inr r
             /\ In (status_code r) [201; 400; 500]%Z)
  /\ (configured (sub_email req) && configured (MAILCHIMP_AUDIENCE_ID env) = false ->
      Eff.trace (subscribe env world req) = [])
  /\ (configured (sub_email req) && configured (MAILCHIMP_AUDIENCE_ID env) = true ->
      exists address list_id,
        sub_email req = Some address
        /\ MAILCHIMP_AUDIENCE_ID env = Some list_id
        /\ Eff.trace (subscribe env world req) =
             [AddListMember list_id (subscribe_member req address)]).
Proof.
  destruct (configured (sub_email req)
            && configured (MAILCHIMP_AUDIENCE_ID env)) eqn:Hc.
  - destruct (subscribe_on env world req Hc) as [a [l [He [Hl Hrun]]]].
    rewrite Hrun. unfold Eff.result, Eff.trace; cbn [fst snd].
    split; [|split; [discriminate | eauto]].
    destruct (addListMember world l _) as [err|st].
    + destruct (strict_eq_number _ _ && strict_eq_string _ _);
        eexists; split; try reflexivity; cbn; auto.
    + eexists; split; try reflexivity; cbn; auto.
  - rewrite (subscribe_off env world req Hc).
    unfold Eff.result, Eff.trace; cbn [fst snd].
    split; [|split; [reflexivity | discriminate]].
    destruct (configured (sub_email req));
      eexists; split; try reflexivity; cbn; auto.
Qed.

(** X10.  An unsubscribe request with an address, on a configured list,
    makes one call to the audience service, an update of the member
    named by the digest of the address to status unsubscribed, without
    looking the member up first.  It answers 200 when the update
    resolves and 500 with the text of the error when it throws. *)
Theorem unsubscribe_outcomes env world address list_id :
  JsString.truthy address = true ->
  MAILCHIMP_AUDIENCE_ID env = Some list_id -> JsString.truthy list_id = true ->
  audience_calls (Eff.trace (unsubscribe env world address)) =
    [UpdateListMember list_id (subscriberHash address) "unsubscribed"]
  /\ (updateListMember world list_id (subscriberHash address) "unsubscribed"
        = None ->
      Eff.result (unsubscribe env world address) =
        inr (respond 200 true "Successfully unsubscribed from newsletter"))
  /\ (forall err,
        updateListMember world list_id (subscriberHash address) "unsubscribed"
          = Some err ->
        Eff.result (unsubscribe env world address) =
          inr (respond_error 500 "Failed to unsubscribe from newsletter"
                 (err_message err))).
Proof.
  intros Hne Hl Hnl.
  rewrite (unsubscribe_configured env world address list_id Hne Hl Hnl).
  unfold Eff.result, Eff.trace; cbn [fst snd].
  split; [reflexivity|]. split.
  - intros ->. reflexivity.
  - intros err ->. reflexivity.
Qed.

Lemma unsubscribe_outcomes_witness :
  updateListMember Sample.world_audience_down "list-1"
    (subscriberHash "Jane@Example.com") "unsubscribed"
    = Some (Sample.plain_error "Service Unavailable")
  /\ Eff.result (unsubscribe Sample.env_full Sample.world_audience_down
                   "Jane@Example.com") =
     inr (respond_error 500 "Failed to unsubscribe from newsletter"
            "Service Unavailable").
Proof.
  split; [reflexivity|].
  refine (proj2 (proj2 (unsubscribe_outcomes Sample.env_full
                          Sample.world_audience_down "Jane@Example.com" "list-1"
                          _ _ _))
            (Sample.plain_error "Service Unavailable") _);
    reflexivity.
Defined.

(** X11.  In every response of the three handlers the [success] flag
    says whether the status is below 300; the key [error] is present
    only in a 500 response and the key [errors] only in a 400 response. *)
Theorem success_flag_matches_status zod env world r :
  (exists body, Eff.result (contact zod env world body) = inr r)
  \/ (exists req, Eff.result (subscribe env world req) = inr r)
  \/ (exists address, Eff.result (unsubscribe env world address) = inr r) ->
  success (json r) = (status_code r <? 300)%Z
  /\ (body_error (json r) <> None -> status_code r = 500%Z)
  /\ (body_errors (json r) <> None -> status_code r = 400%Z).
Proof.
  intros [[body Hr] | [[req Hr] | [address Hr]]].
  - destruct (contactFormSchema zod body) as [issues|data] eqn:Hparse.
    + rewrite (contact_rejected zod env world body issues Hparse) in Hr.
      unfold Eff.result in Hr; cbn [snd] in Hr.
      destruct (errorsProperty zod issues); inversion Hr; subst; cbn.
      repeat split; congruence.
    + rewrite (contact_accepted zod env world body data Hparse) in Hr.
      destruct (sendMail world (mailOptions env data));
        inversion Hr; subst; cbn; repeat split; congruence.
  - destruct (configured (sub_email req)
              && configured (MAILCHIMP_AUDIENCE_ID env)) eqn:Hc.
    + destruct (subscribe_on env world req Hc) as [a [l [_ [_ Hrun]]]].
      rewrite Hrun in Hr. unfold Eff.result in Hr; cbn [snd] in Hr.
      destruct (addListMember world l _) as [err|st].
      * destruct (strict_eq_number _ _ && strict_eq_string _ _);
          inversion Hr; subst; cbn; repeat split; congruence.
      * inversion Hr; subst; cbn; repeat split; congruence.
    + rewrite (subscribe_off env world req Hc) in Hr.
      destruct (configured (sub_email req));
        inversion Hr; subst; cbn; repeat split; congruence.
  - destruct (configured (MAILCHIMP_AUDIENCE_ID env)) eqn:Hc.
    + destruct (JsString.truthy address) eqn:Hne.
      * unfold configured in Hc.
        destruct (MAILCHIMP_AUDIENCE_ID env) as [l|] eqn:Hl; [|discriminate].
        rewrite (unsubscribe_configured env world address l Hne Hl Hc) in Hr.
        unfold Eff.result in Hr; cbn [snd] in Hr.
        destruct (updateListMember world l _ _);
          inversion Hr; subst; cbn; repeat split; congruence.
      * unfold unsubscribe in Hr. rewrite Hne in Hr.
        inversion Hr; subst; cbn; repeat split; congruence.
    + rewrite (unsubscribe_not_configured env world address Hc) in Hr.
      destruct (JsString.truthy address);
        inversion Hr; subst; cbn; repeat split; congruence.
Qed.

Lemma success_flag_matches_status_witness :
  Eff.result (subscribe Sample.env_full Sample.world_member_exists
                MoreSamples.subscribe_request) =
    inr (respond 400 false "This email is already subscribed to the newsletter")
  /\ success (json (respond 400 false
                      "This email is already subscribed to the newsletter")) =
     (status_code (respond 400 false
                     "This email is already subscribed to the newsletter")
      <? 300)%Z.
Proof.
  assert (Hr : Eff.result (subscribe Sample.env_full Sample.world_member_exists
                             MoreSamples.subscribe_request) =
               inr (respond 400 false
                      "This email is already subscribed to the newsletter"))
    by reflexivity.
  split; [exact Hr|].
  apply (success_flag_matches_status Zod4.runtime Sample.env_full
           Sample.world_member_exists).
  right. left. exists MoreSamples.subscribe_request. exact Hr.
Defined.

(** ** Names and addresses *)

(** A text has a single piece exactly when it holds no separator. *)
Lemma split_on_single sep s :
  existsb sep (list_ascii_of_string s) =
  match tl (JsString.split_on sep s) with
  | [] => false
  | _ => true
  end.
Proof.
  induction s as [|c r IH]; [reflexivity|].
  cbn [list_ascii_of_string existsb JsString.split_on].
  destruct (split_on_cons sep r) as [p [ps Hr]]. rewrite Hr in *.
  destruct (sep c); cbn; [reflexivity | exact IH].
Qed.

Lemma append_empty s : (s ++ "")%string = s.
Proof.
  induction s as [|c r IH]; [reflexivity|]. cbn. now rewrite IH.
Qed.

(** X12.  The first and the last name rebuild the submitted name: a name
    without space is the first name, with an empty last name; any other
    name is the first name, one space and the last name.  The first name
    holds no space, so no character of the name is lost or added. *)
Theorem name_parts_rebuild_name name :
  name = (firstName_of name
          ++ (if has_space name then " " ++ lastName_of name else ""))%string
  /\ every (fun c => JsString.is_space c = false) (firstName_of name)
  /\ (has_space name = false -> firstName_of name = name /\ lastName_of name = "").
Proof.
  rewrite firstName_of_hd, lastName_of_tl.
  pose proof (join_split_space name) as Hjoin.
  pose proof (split_on_single JsString.is_space name) as Hsingle.
  pose proof (split_on_hd JsString.is_space name) as Hhd.
  fold (has_space name) in Hsingle.
  fold (JsString.split_space name) in Hsingle, Hhd.
  destruct (JsString.split_space name) as [|p ps]; [now subst|].
  cbn [hd tl] in *.
  destruct ps as [|q qs]; rewrite Hsingle.
  - cbn in Hjoin. subst p.
    split; [now rewrite append_empty | split; [exact Hhd | auto]].
  - split; [symmetry; exact Hjoin | split; [exact Hhd | discriminate]].
Qed.

Lemma code_range c : (0 <= JsString.code c < 256)%Z.
Proof.
  unfold JsString.code. pose proof (N_ascii_bounded c). lia.
Qed.

Lemma code_of_code z :
  (0 <= z < 256)%Z -> JsString.code (JsString.of_code z) = z.
Proof.
  intros Hz. unfold JsString.code, JsString.of_code.
  rewrite N_ascii_embedding by lia. lia.
Qed.

Lemma lower_char_idem c :
  JsString.lower_char (JsString.lower_char c) = JsString.lower_char c.
Proof.
  destruct (JsString.is_upper c) eqn:Hup.
  - assert (Hrange : (0 <= JsString.code c + 32 < 256)%Z).
    { unfold JsString.is_upper in Hup. lia. }
    destruct (lower_char_upper c (JsString.of_code (JsString.code c + 32)) Hup
                (code_of_code _ Hrange)) as [Hc Hd].
    rewrite Hc. exact Hd.
  - unfold JsString.lower_char. now rewrite !Hup.
Qed.

Lemma toLowerCase_idem s :
  JsString.toLowerCase (JsString.toLowerCase s) = JsString.toLowerCase s.
Proof.
  induction s as [|c r IH]; [reflexivity|].
  cbn. now rewrite lower_char_idem, IH.
Qed.

Lemma enroll_digests env world data algorithm input :
  In (Digest algorithm input) (Eff.trace (enroll env world data)) ->
  algorithm = "md5" /\ input = JsString.toLowerCase (email data).
Proof.
  destruct (configured (MAILCHIMP_AUDIENCE_ID env)) eqn:Hc.
  - unfold configured in Hc.
    destruct (MAILCHIMP_AUDIENCE_ID env) as [l|] eqn:Hid; [|discriminate].
    rewrite (enroll_trace env world data l Hid Hc).
    destruct (getListMember world l _); [destruct (addListMember world l _)|];
      cbn; intros H;
      repeat (destruct H as [H|H]; try discriminate); try contradiction;
      inversion H; auto.
  - rewrite (enroll_skipped env world data Hc). intros [].
Qed.

(** X13.  Lowercasing an address changes nothing when done twice, so an
    address and its lowercased form name the same member.  Every digest
    that the contact and the unsubscribe handlers compute is an md5 digest
    of a lowercased text; the subscribe handler computes none. *)
Theorem digests_of_lowercased_addresses zod env world :
  (forall address,
     JsString.toLowerCase (JsString.toLowerCase address)
       = JsString.toLowerCase address
     /\ subscriberHash (JsString.toLowerCase address) = subscriberHash address)
  /\ (forall body algorithm input,
        In (Digest algorithm input) (Eff.trace (contact zod env world body)) ->
        algorithm = "md5" /\ JsString.toLowerCase input = input)
  /\ (forall address algorithm input,
        In (Digest algorithm input) (Eff.trace (unsubscribe env world address)) ->
        algorithm = "md5" /\ input = JsString.toLowerCase address)
  /\ (forall req algorithm input,
        ~ In (Digest algorithm input) (Eff.trace (subscribe env world req))).
Proof.
  split; [|split; [|split]].
  - intros address. split; [apply toLowerCase_idem|].
    unfold subscriberHash. now rewrite toLowerCase_idem.
  - intros body algorithm input.
    destruct (contactFormSchema zod body) as [issues|data] eqn:Hparse.
    + rewrite (contact_rejected zod env world body issues Hparse). intros [].
    + rewrite (contact_accepted zod env world body data Hparse).
      destruct (sendMail world (mailOptions env data)); cbn.
      * intros [H|[H|[]]]; discriminate.
      * intros [H|H]; [discriminate|].
        apply enroll_digests in H as [-> ->].
        split; [reflexivity | apply toLowerCase_idem].
  - intros address algorithm input.
    destruct (configured (MAILCHIMP_AUDIENCE_ID env)) eqn:Hc.
    + destruct (JsString.truthy address) eqn:Hne.
      * unfold configured in Hc.
        destruct (MAILCHIMP_AUDIENCE_ID env) as [l|] eqn:Hl; [|discriminate].
        rewrite (unsubscribe_configured env world address l Hne Hl Hc). cbn.
        intros [H|[H|[]]]; [|discriminate]. inversion H. auto.
      * unfold unsubscribe. rewrite Hne. intros [].
    + rewrite (unsubscribe_not_configured env world address Hc). intros [].
  - intros req algorithm input.
    destruct (configured (sub_email req)
              && configured (MAILCHIMP_AUDIENCE_ID env)) eqn:Hc.
    + destruct (subscribe_on env world req Hc) as [a [l [_ [_ Hrun]]]].
      rewrite Hrun. cbn. intros [H|[]]. discriminate.
    + rewrite (subscribe_off env world req Hc). intros [].
Qed.

(** ** Bodies that are not objects, and the addressing of the mail *)

(** X14.  A request body that is not an object (null, a boolean, a
    number, a string or an array) is rejected with a single issue whose
    path is empty, so the only field that can be reported for it is the
    empty string; the handler makes no call and sends no success
    response. *)
Theorem non_object_body_is_rejected zod env world body :
  (forall o, body <> JObject o) ->
  exists issue,
    contactFormSchema zod body = inl [issue]
    /\ issue_path issue = []
    /\ JsString.join_dot (issue_path issue) = ""
    /\ Eff.trace (contact zod env world body) = []
    /\ forall r,
         Eff.result (contact zod env world body) = inr r ->
         status_code r = 400%Z.
Proof.
  intros Hnot.
  pose proof (contactFormSchema_not_an_object zod body Hnot) as Hparse.
  eexists. split; [exact Hparse|]. split; [reflexivity|].
  split; [reflexivity|].
  rewrite (contact_rejected zod env world body _ Hparse).
  split; [reflexivity|].
  unfold Eff.result; cbn [snd]. intros r Hr.
  destruct (errorsProperty zod _); inversion Hr; subst. reflexivity.
Qed.

Lemma non_object_body_is_rejected_witness :
  (forall o, JArray [] <> JObject o)
  /\ exists issue,
       contactFormSchema Zod4.runtime (JArray []) = inl [issue]
       /\ issue_path issue = [].
Proof.
  assert (Hnot : forall o, JArray [] <> JObject o) by discriminate.
  split; [exact Hnot|].
  destruct (non_object_body_is_rejected Zod4.runtime Sample.env_full
              Sample.world_ok (JArray []) Hnot)
    as [issue [Hparse [Hpath _]]].
  exists issue. split; [exact Hparse | exact Hpath].
Defined.

(** X15.  The notification of an accepted submission is addressed from
    the settings alone: the sender is GMAIL_USER and the recipient is
    CONTACT_FORM_RECIPIENT, or GMAIL_USER when the recipient is unset or
    empty, whatever the payload holds; the submitter's address is used
    only as reply-to.  No setting is required: the transport is called
    even when both are unset. *)
Theorem notification_addressing zod env world body data :
  contactFormSchema zod body = inr data ->
  exists options rest,
    Eff.trace (contact zod env world body) = SendMail options :: rest
    /\ mail_from options = GMAIL_USER env
    /\ mail_to options =
         (if configured (CONTACT_FORM_RECIPIENT env)
          then CONTACT_FORM_RECIPIENT env else GMAIL_USER env)
    /\ (configured (CONTACT_FORM_RECIPIENT env) = false ->
        mail_to options = mail_from options)
    /\ replyTo options = email data
    /\ subject options =
         ("New Contact Form Submission: " ++ name data ++ " " ++ email data)%string.
Proof.
  intros Hparse.
  rewrite (contact_accepted zod env world body data Hparse).
  destruct (sendMail world (mailOptions env data));
    do 2 eexists; (split; [reflexivity|]); cbn; unfold env_or;
    repeat split; intros ->; reflexivity.
Qed.

Lemma notification_addressing_witness :
  contactFormSchema Zod4.runtime (JObject (Sample.jane "jane@example.com")) =
    inr (Sample.jane_data "jane@example.com")
  /\ exists options rest,
       Eff.trace (contact Zod4.runtime Sample.env_no_audience Sample.world_ok
                    (JObject (Sample.jane "jane@example.com"))) =
         SendMail options :: rest
       /\ mail_to options = Some "relay@gmail.com".
Proof.
  assert (Hparse : contactFormSchema Zod4.runtime
                     (JObject (Sample.jane "jane@example.com")) =
                   inr (Sample.jane_data "jane@example.com"))
    by (vm_compute; reflexivity).
  split; [exact Hparse|].
  destruct (notification_addressing Zod4.runtime Sample.env_no_audience
              Sample.world_ok _ _ Hparse)
    as [options [rest [Htrace [_ [Hto _]]]]].
  exists options, rest. split; [exact Htrace | exact Hto].
Defined.
